(** * EPT'Scope: the acquisition core of [STM_32/main.py] and [EPTscope.py]

    A shallow embedding of the serial oscilloscope: the bounded sample
    buffer ([self.timestamps], [self.data]), the reader loop [read_data],
    the start / pause / clear handlers, the signal-processing handlers
    (moving average, low-pass filter, FFT), and the text export / import.

    Conventions.
    - A handler is a function from the widget state to the widget state
      and what the handler showed or raised.
    - Text is a list of characters, the code points below 256.
    - The reader converts ADC codes in IEEE binary64, modelled with
      [SpecFloat]; signal-processing values are polymorphic, or exact
      rationals where a statement needs arithmetic laws.
    - What the environment decides (the frame read from the port, the
      clock, whether the port opens, the answer to a dialog) is an
      argument of the handler. *)

From Stdlib Require Import String Ascii Decimal DecimalString.
From Stdlib Require Import ZArith QArith Qabs Lqa List Bool Lia Arith.
From Stdlib Require Import SpecFloat.
Import ListNotations.
Local Open Scope nat_scope.

Set Implicit Arguments.

(** ** Exceptions and reports *)

(** The Python exceptions the modelled code can raise. *)
Inductive exn : Type :=
| ValueError
| IndexError
| OverflowError
| ZeroDivisionError
| SerialException.

(** What a handler tells the user: message boxes and console prints. *)
Inductive report : Type :=
| WarnNoSignal          (* QMessageBox "No Signal" of apply_filter *)
| WarnNoPortAvailable   (* QMessageBox "No Port Available" of start_signal *)
| WarnNotEnoughData     (* QMessageBox "Not enough data" of EPTscope.py *)
| WarnNoData            (* QMessageBox "No data." of EPTscope.py *)
| InfoStats             (* QMessageBox "Stats" of EPTscope.py *)
| PrintSamplingRate
| PrintScreenCleared
| PrintOpenFailed       (* "Failed to open serial port" *)
| PrintInvalidData      (* "Invalid data received from serial port." *)
| PrintSerialError      (* "Serial port error" *)
| PrintExported
| PrintGraphExported
| PrintLoaded
| PrintLoadError
| PrintUnsupportedFormat
| PrintVoltage.         (* print(voltage) of read_data *)

(** ** The widget state *)

(** A [serial.Serial] object: the port it was opened on and whether it is
    still open. *)
Record Serial : Type := mkSerial {
  port : string;
  baudrate : Z;
  is_open : bool
}.

(** The fields of [OscilloscopeUI] the handlers read or write. [V] is the
    type of a sample value and of a timestamp (a Python float).
    [readers] counts the reader threads started so far; [curve] is what
    [plot_curve.setData] was last given and [fft_plot] the spectrum
    [compute_fft] drew, if any. *)
Record scope (V : Type) : Type := mkScope {
  ser : option Serial;
  data : list V;
  timestamps : list V;
  is_running : bool;
  timer_active : bool;
  readers : nat;
  start_btn_enabled : bool;
  pause_btn_enabled : bool;
  com_select_enabled : bool;
  baud_select_enabled : bool;
  curve : list V * list V;
  fft_plot : option (list V * list V)
}.

Arguments mkScope {V}.

(** [__init__]: no port, empty buffer, not running. *)
Definition init (V : Type) : scope V :=
  mkScope None [] [] false false 0 true true true true ([], []) None.

Definition set_buffer {V} (ts ds : list V) (s : scope V) : scope V :=
  mkScope (ser s) ds ts (is_running s) (timer_active s) (readers s)
          (start_btn_enabled s) (pause_btn_enabled s)
          (com_select_enabled s) (baud_select_enabled s)
          (curve s) (fft_plot s).

Definition set_data {V} (ds : list V) (s : scope V) : scope V :=
  set_buffer (timestamps s) ds s.

(** ** The sample buffer *)

(** [max_data_points = 1000] in [read_data]. *)
Definition max_data_points : nat := 1000.

(** The critical section of [read_data] (lines 415-420):
    append to both lists, then drop the head of both when [data] has
    grown past [cap].  Both lists were just appended to, so [pop(0)]
    finds an element and is the tail. *)
Definition append_sample {V} (cap : nat) (t v : V) (s : scope V) : scope V :=
  let ts := timestamps s ++ [t] in
  let ds := data s ++ [v] in
  if cap <? length ds
  then set_buffer (tl ts) (tl ds) s
  else set_buffer ts ds s.

(** A run of appends, oldest first. *)
Definition append_all {V} (cap : nat) (xs : list (V * V)) (s : scope V) : scope V :=
  fold_left (fun st x => append_sample cap (fst x) (snd x) st) xs s.

(** The last [n] elements of a list. *)
Definition lastn {A} (n : nat) (l : list A) : list A :=
  skipn (length l - n) l.

(** The buffer is aligned: one timestamp per value. *)
Definition aligned {V} (s : scope V) : Prop :=
  length (timestamps s) = length (data s).

(** ** Text *)

(** Decoded text: the characters of a Python [str], as code points. *)
Definition text : Type := list ascii.

Definition txt (s : string) : text := list_ascii_of_string s.

Definition code (c : ascii) : nat := nat_of_ascii c.

(** [str.isspace] on one character, for the code points below 256:
    TAB LF VT FF CR, FS GS RS US, SPACE, NEL (0x85) and NBSP (0xA0). *)
Definition is_space (c : ascii) : bool :=
  let n := code c in
  ((9 <=? n) && (n <=? 13)) || ((28 <=? n) && (n <=? 32))
  || (n =? 133) || (n =? 160).

(** The characters the pattern [\d] matches among the code points below
    256, which are also those [int] accepts as digits: 0 to 9. *)
Definition is_digit (c : ascii) : bool :=
  let n := code c in (48 <=? n) && (n <=? 57).

Definition digit_value (c : ascii) : Z := Z.of_nat (code c - 48).

Fixpoint lstrip (l : text) : text :=
  match l with
  | c :: l' => if is_space c then lstrip l' else l
  | [] => []
  end.

Definition rstrip (l : text) : text := rev (lstrip (rev l)).

(** [str.strip()] *)
Definition strip (l : text) : text := rstrip (lstrip l).

(** [str.split()] with no argument: the maximal runs of characters that
    are not whitespace. [cur] is the run being read. *)
Fixpoint split_from (cur : text) (l : text) : list text :=
  match l with
  | [] => match cur with [] => [] | _ => [cur] end
  | c :: l' =>
      if is_space c
      then match cur with [] => split_from [] l' | _ => cur :: split_from [] l' end
      else split_from (cur ++ [c]) l'
  end.

Definition split_ws (l : text) : list text := split_from [] l.

(** [re.findall(r"\d+", line)]: the maximal runs of digits, left to right. *)
Fixpoint findall_from (cur : text) (l : text) : list text :=
  match l with
  | [] => match cur with [] => [] | _ => [cur] end
  | c :: l' =>
      if is_digit c
      then findall_from (cur ++ [c]) l'
      else match cur with [] => findall_from [] l' | _ => cur :: findall_from [] l' end
  end.

Definition findall_digits (l : text) : list text := findall_from [] l.

(** [str.startswith] and [str.endswith] *)
Fixpoint startswith (l prefix : text) : bool :=
  match prefix, l with
  | [], _ => true
  | a :: prefix', b :: l' => Ascii.eqb a b && startswith l' prefix'
  | _ :: _, [] => false
  end.

Definition endswith (l suffix : text) : bool := startswith (rev l) (rev suffix).

Definition LF : ascii := ascii_of_nat 10.
Definition CR : ascii := ascii_of_nat 13.
Definition SP : ascii := ascii_of_nat 32.

(** [file.readlines()] of a file opened in text mode: a line ends at LF,
    at CR or at CR LF, each read back as LF and kept on the line. *)
Fixpoint readlines_from (cur : text) (l : text) : list text :=
  match l with
  | [] => match cur with [] => [] | _ => [cur] end
  | c :: l' =>
      if Ascii.eqb c LF then (cur ++ [LF]) :: readlines_from [] l'
      else if Ascii.eqb c CR then
        match l' with
        | c' :: l'' =>
            if Ascii.eqb c' LF then (cur ++ [LF]) :: readlines_from [] l''
            else (cur ++ [LF]) :: readlines_from [] l'
        | [] => [cur ++ [LF]]
        end
      else readlines_from (cur ++ [c]) l'
  end.

Definition readlines (l : text) : list text := readlines_from [] l.

(** ** Results of fallible steps *)

Inductive outcome (A : Type) : Type :=
| Ok (a : A)
| Raise (e : exn).

Arguments Ok {A}.
Arguments Raise {A}.

Definition bind {A B} (m : outcome A) (k : A -> outcome B) : outcome B :=
  match m with
  | Ok a => k a
  | Raise e => Raise e
  end.

Notation "x <- m ;; k" := (bind m (fun x => k))
  (at level 61, m at next level, right associativity).

(** Map a fallible function over a list, left to right, as
    [list(map(f, xs))] does: the first exception ends it. *)
Fixpoint map_outcome {A B} (f : A -> outcome B) (l : list A) : outcome (list B) :=
  match l with
  | [] => Ok []
  | a :: l' => b <- f a ;; bs <- map_outcome f l' ;; Ok (b :: bs)
  end.

(** ** Python integers and floats *)

(** The decimal value of a run of digits. *)
Definition decimal_value (run : text) : Z :=
  fold_left (fun acc c => (10 * acc + digit_value c)%Z) run 0%Z.

(** [int(run)] on a run of digits. [limit] is the interpreter's
    [sys.get_int_max_str_digits()]: 0 when the limit is off or absent
    (before Python 3.11), 4300 by default since. CPython checks it only
    for more than 640 digits. A longer run raises ValueError. *)
Definition python_int (limit : nat) (run : text) : outcome Z :=
  if (640 <? length run) && (0 <? limit) && (limit <? length run)
  then Raise ValueError
  else Ok (decimal_value run).

(** A Python float: IEEE 754 binary64. *)
Definition float : Type := spec_float.
Definition prec : Z := 53.
Definition emax : Z := 1024.

Definition float_of_Z (z : Z) : float :=
  match z with
  | Z0 => S754_zero false
  | Zpos p => S754_finite false p 0
  | Zneg p => S754_finite true p 0
  end.

Definition float_mul (x y : float) : float := SFmul prec emax x y.
Definition float_sub (x y : float) : float := SFsub prec emax x y.

Definition is_infinite (x : float) : bool :=
  match x with S754_infinity _ => true | _ => false end.

(** [a / b] on two Python ints: the correctly rounded quotient;
    ZeroDivisionError for [b = 0], OverflowError ("integer division result
    too large for a float") when the quotient rounds past the largest
    float. *)
Definition int_truediv (a b : Z) : outcome float :=
  if (b =? 0)%Z then Raise ZeroDivisionError
  else
    let q := SFdiv prec emax (float_of_Z a) (float_of_Z b) in
    if is_infinite q then Raise OverflowError else Ok q.

(** The literals of [read_data]: [vref = 3.3], [max_adc_value = 4095]
    and the offset [0.6], the floats nearest to 3.3 and 0.6. *)
Definition vref : float := S754_finite false 7430939385161318 (-51).
Definition max_adc_value : Z := 4095.
Definition offset : float := S754_finite false 5404319552844595 (-53).

(** [(adc_value / max_adc_value) * vref - 0.6] *)
Definition adc_to_voltage (adc_value : Z) : outcome float :=
  q <- int_truediv adc_value max_adc_value ;;
  Ok (float_sub (float_mul q vref) offset).

(** ** Handlers *)

(** What a handler leaves behind: the new state, what it showed, and the
    exception that escaped it, if any. An exception does not undo the
    assignments made before it. *)
Record run (V : Type) : Type := mkRun {
  final : scope V;
  shown : list report;
  raised : option exn
}.

Arguments mkRun {V}.

Definition set_ser {V} (h : option Serial) (s : scope V) : scope V :=
  mkScope h (data s) (timestamps s) (is_running s) (timer_active s) (readers s)
          (start_btn_enabled s) (pause_btn_enabled s)
          (com_select_enabled s) (baud_select_enabled s)
          (curve s) (fft_plot s).

Definition set_running {V} (b : bool) (s : scope V) : scope V :=
  mkScope (ser s) (data s) (timestamps s) b (timer_active s) (readers s)
          (start_btn_enabled s) (pause_btn_enabled s)
          (com_select_enabled s) (baud_select_enabled s)
          (curve s) (fft_plot s).

Definition set_timer {V} (b : bool) (s : scope V) : scope V :=
  mkScope (ser s) (data s) (timestamps s) (is_running s) b (readers s)
          (start_btn_enabled s) (pause_btn_enabled s)
          (com_select_enabled s) (baud_select_enabled s)
          (curve s) (fft_plot s).

Definition spawn_reader {V} (s : scope V) : scope V :=
  mkScope (ser s) (data s) (timestamps s) (is_running s) (timer_active s)
          (S (readers s))
          (start_btn_enabled s) (pause_btn_enabled s)
          (com_select_enabled s) (baud_select_enabled s)
          (curve s) (fft_plot s).

Definition set_buttons {V} (start pause com baud : bool) (s : scope V) : scope V :=
  mkScope (ser s) (data s) (timestamps s) (is_running s) (timer_active s)
          (readers s) start pause com baud (curve s) (fft_plot s).

Definition set_curve {V} (xy : list V * list V) (s : scope V) : scope V :=
  mkScope (ser s) (data s) (timestamps s) (is_running s) (timer_active s)
          (readers s)
          (start_btn_enabled s) (pause_btn_enabled s)
          (com_select_enabled s) (baud_select_enabled s)
          xy (fft_plot s).

Definition set_fft_plot {V} (p : option (list V * list V)) (s : scope V) : scope V :=
  mkScope (ser s) (data s) (timestamps s) (is_running s) (timer_active s)
          (readers s)
          (start_btn_enabled s) (pause_btn_enabled s)
          (com_select_enabled s) (baud_select_enabled s)
          (curve s) p.

(** [self.ser and self.ser.isOpen()] *)
Definition port_is_open {V} (s : scope V) : bool :=
  match ser s with
  | Some h => is_open h
  | None => false
  end.

(** [if self.ser and self.ser.isOpen(): self.ser.close()] *)
Definition close_port {V} (s : scope V) : scope V :=
  match ser s with
  | Some h =>
      if is_open h
      then set_ser (Some (mkSerial (port h) (baudrate h) false)) s
      else s
  | None => s
  end.

(** [start_signal] (lines 361-382). [com_port] and [baud_rate] are the
    selections of the two combo boxes; [opens] tells whether
    [serial.Serial(com_port, baud_rate, timeout=1)] succeeds or raises
    SerialException. The handler does not look at [is_running]. *)
Definition start_signal {V} (com_port : string) (baud_rate : Z) (opens : bool)
    (s : scope V) : run V :=
  if String.eqb com_port "No ports available" then
    mkRun s [WarnNoPortAvailable] None
  else if opens then
    let s1 := set_ser (Some (mkSerial com_port baud_rate true)) s in
    let s2 := set_running true s1 in
    let s3 := set_buffer [] [] s2 in
    let s4 := set_timer true s3 in
    mkRun (spawn_reader s4) [] None
  else
    mkRun s [PrintOpenFailed] None.

(** [pause_signal] (lines 384-394). *)
Definition pause_signal {V} (s : scope V) : run V :=
  let s1 := set_running false s in
  let s2 := set_timer false s1 in
  let s3 := close_port s2 in
  mkRun (set_buttons true false true true s3) [] None.

(** [clear_screen] (lines 334-359); [yes] is the answer to the
    confirmation dialog. *)
Definition clear_screen {V} (yes : bool) (s : scope V) : run V :=
  if yes
  then
    let s1 := set_buffer [] [] s in
    let s2 := set_fft_plot None (set_curve ([], []) s1) in
    mkRun s2 [PrintScreenCleared] None
  else mkRun s [] None.

(** *** The reader thread *)

(** What [self.ser.readline().decode('utf-8')] gives in one iteration:
    a decoded line (empty on a read timeout), bytes that are not UTF-8
    (UnicodeDecodeError, a ValueError), or an I/O error on the port. *)
Inductive rx : Type :=
| RxLine (line : text)
| RxUndecodable
| RxSerialError.

Definition receive (input : rx) : outcome text :=
  match input with
  | RxLine line => Ok line
  | RxUndecodable => Raise ValueError
  | RxSerialError => Raise SerialException
  end.

(** The [try] block of [read_data] (lines 405-420) on one frame;
    [elapsed] is [(current_time - start_time).total_seconds()]. *)
Definition read_frame_body (limit : nat) (input : rx) (elapsed : float)
    (s : scope float) : outcome (scope float * list report) :=
  raw <- receive input ;;
  let line := strip raw in
  numbers <- map_outcome (python_int limit) (findall_digits line) ;;
  match numbers with
  | [] => Ok (s, [])
  | _ :: _ =>
      let adc_value := last numbers 0%Z in
      voltage <- adc_to_voltage adc_value ;;
      Ok (append_sample max_data_points elapsed voltage s, [PrintVoltage])
  end.

(** One iteration of the loop body with its two [except] clauses
    (lines 421-428). Any other exception escapes and ends the thread. *)
Definition read_frame (limit : nat) (input : rx) (elapsed : float)
    (s : scope float) : run float :=
  match read_frame_body limit input elapsed s with
  | Ok (s', out) => mkRun s' out None
  | Raise ValueError => mkRun s [PrintInvalidData] None
  | Raise SerialException =>
      mkRun (close_port (set_timer false (set_running false s)))
            [PrintSerialError] None
  | Raise e => mkRun s [] (Some e)
  end.

(** [read_data] (lines 396-428) over the frames the port delivers, each
    with the time it was read. The loop ends when [is_running] is
    cleared, when an exception escapes, or, here, when the input ends.
    While the port is closed the loop reads nothing. *)
Fixpoint read_data (limit : nat) (inputs : list (rx * float)) (s : scope float)
    : run float :=
  match inputs with
  | [] => mkRun s [] None
  | (input, elapsed) :: rest =>
      if is_running s then
        if port_is_open s then
          let r := read_frame limit input elapsed s in
          match raised r with
          | Some e => r
          | None =>
              let r' := read_data limit rest (final r) in
              mkRun (final r') (shown r ++ shown r') (raised r')
          end
        else mkRun s [] None
      else mkRun s [] None
  end.

(** ** Arithmetic of sample values *)

(** The operations the signal-processing code applies to values.
    [ratio n d] is the literal [n/d]; [of_nat] converts a length. *)
Class Arith (V : Type) : Type := {
  add : V -> V -> V;
  sub : V -> V -> V;
  mul : V -> V -> V;
  div : V -> V -> V;
  ratio : Z -> Z -> V;
  is_zero : V -> bool;
  leb : V -> V -> bool
}.

Definition of_nat {V} `{Arith V} (n : nat) : V := ratio (Z.of_nat n) 1.

(** Exact rationals: the arithmetic of the mathematical signal, free of
    rounding. (A quotient by zero is 0 here, where numpy gives inf or nan.) *)
#[export] Instance Q_Arith : Arith Q := {
  add := Qplus;
  sub := Qminus;
  mul := Qmult;
  div := Qdiv;
  ratio := fun n d => Qdiv (inject_Z n) (inject_Z d);
  is_zero := fun x => Qeq_bool x 0;
  leb := Qle_bool
}.

(** Binary64, as numpy and Python compute. *)
#[export] Instance float_Arith : Arith float := {
  add := SFadd prec emax;
  sub := SFsub prec emax;
  mul := SFmul prec emax;
  div := SFdiv prec emax;
  ratio := fun n d => SFdiv prec emax (float_of_Z n) (float_of_Z d);
  is_zero := fun x => match x with S754_zero _ => true | _ => false end;
  leb := SFleb
}.

(** Python's [x / y] on floats raises ZeroDivisionError for [y == 0]. *)
Definition float_truediv {V} `{Arith V} (x y : V) : outcome V :=
  if is_zero y then Raise ZeroDivisionError else Ok (div x y).

(** ** numpy and scipy *)

Section Numeric.
Context {V : Type} `{Arith V}.

Definition total (l : list V) : V := fold_left add l (ratio 0 1).

(** The inner product of a window with a kernel; [combine] stops at the
    end of the shorter list. *)
Definition dot (a v : list V) : V :=
  total (map (fun p => mul (fst p) (snd p)) (combine a v)).

(** [np.correlate(a, v, 'valid')] for [len(a) >= len(v)]: one inner
    product per full overlap. *)
Definition correlate_valid (a v : list V) : list V :=
  map (fun k => dot (skipn k a) v) (seq 0 (length a - length v + 1)).

(** [np.convolve(a, v, mode='valid')]: the longer argument is taken as
    the signal, an empty argument is refused, and the kernel is
    reversed. *)
Definition np_convolve_valid (a v : list V) : outcome (list V) :=
  let a' := if length a <? length v then v else a in
  let v' := if length a <? length v then a else v in
  if length a' =? 0 then Raise ValueError
  else if length v' =? 0 then Raise ValueError
  else Ok (correlate_valid a' (rev v')).

(** [np.ones(n) / n] *)
Definition ones_over (n : nat) : list V := repeat (div (ratio 1 1) (of_nat n)) n.

(** [moving_average] (lines 473-475). *)
Definition moving_average (data : list V) (window_size : nat) : outcome (list V) :=
  np_convolve_valid data (ones_over window_size).

(** [np.diff] and [np.mean] *)
Definition np_diff (l : list V) : list V :=
  map (fun p => sub (snd p) (fst p)) (combine l (tl l)).

Definition np_mean (l : list V) : V := div (total l) (of_nat (length l)).

(** [np.linspace(start, stop, num)]: [num] evenly spaced points, the
    last one being [stop] itself. *)
Definition linspace (start stop : V) (num : nat) : list V :=
  match num with
  | 0 => []
  | 1 => [start]
  | S n =>
      let step := div (sub stop start) (of_nat n) in
      map (fun i => add start (mul (of_nat i) step)) (seq 0 n) ++ [stop]
  end.

(** [scipy.signal.lfilter(b, a, x)]: the difference equation
    [a0*y[n] = b0*x[n] + b1*x[n-1] + ... - a1*y[n-1] - ...].
    [xh] and [yh] are the inputs and outputs so far, latest first. *)
Fixpoint lfilter_from (b a : list V) (xh yh : list V) (x : list V) : list V :=
  match x with
  | [] => []
  | xn :: x' =>
      let xh' := xn :: xh in
      let y := div (sub (dot b xh') (dot (tl a) yh)) (hd (ratio 1 1) a) in
      y :: lfilter_from b a xh' (y :: yh) x'
  end.

Definition lfilter (b a x : list V) : list V := lfilter_from b a [] [] x.

(** [scipy.signal.butter(order, Wn, btype='low')]: the design of the
    coefficients [(b, a)], or ValueError when [Wn] is not inside (0, 1). *)
Variable butter : nat -> V -> outcome (list V * list V).

(** [np.abs(scipy.fftpack.fft(x))]: the magnitudes of the discrete
    Fourier transform, one per input sample. *)
Variable fft_abs : list V -> list V.

(** [low_pass_filter] (lines 294-299). *)
Definition low_pass_filter (data : list V) (cutoff_freq sampling_rate : V)
    (order : nat) : outcome (list V) :=
  let nyquist_freq := mul (ratio 1 2) sampling_rate in
  let normal_cutoff := div cutoff_freq nyquist_freq in
  ba <- butter order normal_cutoff ;;
  Ok (lfilter (fst ba) (snd ba) data).

(** [update_plot] (lines 431-447): smooth with a window of 5 and hand
    the result to [plot_curve.setData]. *)
Definition update_plot (s : scope V) : run V :=
  match data s, timestamps s with
  | _ :: _, _ :: _ =>
      let min_length := Nat.min (length (data s)) (length (timestamps s)) in
      let trimmed_data := firstn min_length (data s) in
      let trimmed_timestamps := firstn min_length (timestamps s) in
      match moving_average trimmed_data 5 with
      | Ok smoothed_data =>
          let xs := firstn (length smoothed_data) trimmed_timestamps in
          mkRun (set_curve (xs, smoothed_data) s) [] None
      | Raise e => mkRun s [] (Some e)
      end
  | _, _ => mkRun s [] None
  end.

(** The sampling rate [apply_filter] estimates (lines 310-315) and the
    cutoff it chooses from it (line 320). *)
Definition estimated_rate (time_data : list V) : V :=
  if 2 <=? length time_data
  then div (ratio 1 1) (np_mean (np_diff time_data))
  else ratio 1000 1.

Definition chosen_cutoff (sampling_rate : V) : V :=
  mul (ratio 1 10) (mul (ratio 1 2) sampling_rate).

(** [apply_filter] (lines 301-327). *)
Definition apply_filter (s : scope V) : run V :=
  match data s with
  | [] => mkRun s [WarnNoSignal] None
  | _ :: _ =>
      let signal_data := data s in
      let time_data := timestamps s in
      let sampling_rate := estimated_rate time_data in
      let cutoff_freq := chosen_cutoff sampling_rate in
      match low_pass_filter signal_data cutoff_freq sampling_rate 4 with
      | Ok filtered_data =>
          let r := update_plot (set_data filtered_data s) in
          mkRun (final r) (PrintSamplingRate :: shown r) (raised r)
      | Raise e => mkRun s [PrintSamplingRate] (Some e)
      end
  end.

(** [compute_fft] (lines 497-510). *)
Definition compute_fft (s : scope V) : run V :=
  if 0 <? length (data s) then
    let N := length (data s) in
    match nth_error (timestamps s) 1, nth_error (timestamps s) 0 with
    | Some t1, Some t0 =>
        let T := sub t1 t0 in
        let yf := fft_abs (data s) in
        match float_truediv (ratio 1 1) (mul (ratio 2 1) T) with
        | Ok nyquist =>
            let xf := linspace (ratio 0 1) nyquist (N / 2) in
            let amplitude :=
              map (mul (div (ratio 2 1) (of_nat N))) (firstn (N / 2) yf) in
            mkRun (set_fft_plot (Some (xf, amplitude)) s) [] None
        | Raise e => mkRun s [] (Some e)
        end
    | _, _ => mkRun s [] (Some IndexError)
    end
  else mkRun s [] None.

End Numeric.

(** ** Export and import *)

Section Files.
Context {V : Type}.

(** [f"{x}"] on a float, and [float(text)], which raises ValueError on
    text that is not a number: the interpreter's conversions. *)
Variable float_repr : V -> text.
Variable float_of_text : text -> outcome V.

(** One line of the exported file: [f"{timestamp} {voltage}\n"]. *)
Definition export_row (p : V * V) : text :=
  float_repr (fst p) ++ [SP] ++ float_repr (snd p) ++ [LF].

(** [export_data] (lines 512-534). [file_path] is the answer of the save
    dialog, empty when cancelled. The second component is the text
    written to the file, if one was written. *)
Definition export_data (file_path : text) (s : scope V) : run V * option text :=
  match file_path with
  | [] => (mkRun s [] None, None)
  | _ :: _ =>
      if endswith file_path (txt ".txt") then
        let rows := map export_row (combine (timestamps s) (data s)) in
        (mkRun s [PrintExported] None, Some (concat rows))
      else if endswith file_path (txt ".png") then
        (mkRun s [PrintGraphExported] None, None)
      else
        (mkRun s [PrintUnsupportedFormat] None, None)
  end.

(** The loop of [open_signal] (lines 548-552) over the lines of the
    file; [ts] and [ds] are the local lists built so far. *)
Fixpoint parse_rows (lines : list text) (ts ds : list V) : outcome (list V * list V) :=
  match lines with
  | [] => Ok (ts, ds)
  | line :: rest =>
      match split_ws (strip line) with
      | [p0; p1] =>
          t <- float_of_text p0 ;;
          v <- float_of_text p1 ;;
          parse_rows rest (ts ++ [t]) (ds ++ [v])
      | _ => parse_rows rest ts ds
      end
  end.

(** [open_signal] (lines 536-564). [file_path] is the answer of the open
    dialog; [content] is the text of that file, [None] when it cannot
    be opened. Every exception inside the [try] is caught. *)
Definition open_signal (file_path : text) (content : option text) (s : scope V)
    : run V :=
  match file_path with
  | [] => mkRun s [PrintUnsupportedFormat] None
  | _ :: _ =>
      if endswith file_path (txt ".txt") then
        match content with
        | Some c =>
            match parse_rows (readlines c) [] [] with
            | Ok (ts, ds) =>
                let s1 := set_buffer ts ds s in
                mkRun (set_curve (ts, ds) s1) [PrintLoaded] None
            | Raise _ => mkRun s [PrintLoadError] None
            end
        | None => mkRun s [PrintLoadError] None
        end
      else mkRun s [PrintUnsupportedFormat] None
  end.

End Files.

(** ** The second window, [EPTscope.py] *)

Module EPTScope.

(** The fields of [EPTScope] the handlers below use; [fft_window] is
    the spectrum window [perform_fft] opened, [curve] what
    [curve.setData] was last given. *)
Record window (V : Type) : Type := mkWindow {
  buffer_t : list V;
  buffer_y : list V;
  is_running : bool;
  curve : list V * list V;
  fft_window : option (list V * list V)
}.

Arguments mkWindow {V}.

Section Handlers.
Context {V : Type} `{Arith V}.

(** [np.abs(np.fft.rfft(x))] and [scipy.signal.filtfilt(b, a, x)] with
    the coefficients of [butter(4, [1/50, 50/500], btype='band')]. *)
Variable rfft_abs : list V -> list V.
Variable band_filtfilt : list V -> list V.

(** [np.fft.rfftfreq(n, d)]: [k / (d*n)] for [k = 0 .. n/2]. *)
Definition rfftfreq (n : nat) (d : V) : outcome (list V) :=
  val <- float_truediv (ratio 1 1) (mul (of_nat n) d) ;;
  Ok (map (fun k => mul (of_nat k) val) (seq 0 (n / 2 + 1))).

(** [start_acq] and [pause_acq] (lines 325-333) *)
Definition start_acq (w : window V) : window V :=
  mkWindow (buffer_t w) (buffer_y w) true (curve w) (fft_window w).

Definition pause_acq (w : window V) : window V :=
  mkWindow (buffer_t w) (buffer_y w) false (curve w) (fft_window w).

(** [perform_fft] (lines 394-402) *)
Definition perform_fft (w : window V) : window V * list report * option exn :=
  if length (buffer_y w) <? 2 then (w, [WarnNotEnoughData], None)
  else
    let Y := rfft_abs (buffer_y w) in
    match nth_error (buffer_t w) 1, nth_error (buffer_t w) 0 with
    | Some t1, Some t0 =>
        let d := div (sub t1 t0) (ratio 1000 1) in
        match rfftfreq (length (buffer_y w)) d with
        | Ok X =>
            (mkWindow (buffer_t w) (buffer_y w) (is_running w) (curve w)
                      (Some (X, Y)), [], None)
        | Raise e => (w, [], Some e)
        end
    | _, _ => (w, [], Some IndexError)
    end.

(** [perform_filter] (lines 404-410) *)
Definition perform_filter (w : window V) : window V * list report :=
  if length (buffer_y w) <? 10 then (w, [WarnNotEnoughData])
  else
    let y2 := band_filtfilt (buffer_y w) in
    (mkWindow (buffer_t w) (buffer_y w) (is_running w) (buffer_t w, y2)
              (fft_window w), []).

Definition min_of (x : V) (l : list V) : V :=
  fold_left (fun m y => if leb m y then m else y) l x.

Definition max_of (x : V) (l : list V) : V :=
  fold_left (fun m y => if leb y m then m else y) l x.

(** [measure_stats] (lines 352-357): the minimum, the maximum and the
    mean it shows. *)
Definition measure_stats (w : window V) : window V * list report * option (V * V * V) :=
  match buffer_y w with
  | [] => (w, [WarnNoData], None)
  | y :: ys =>
      let mn := min_of y ys in
      let mx := max_of y ys in
      let av := div (total (buffer_y w)) (of_nat (length (buffer_y w))) in
      (w, [InfoStats], Some (mn, mx, av))
  end.

End Handlers.

End EPTScope.

(** ** Notions used in the statements *)

(** [r] is the last run of digits of the frame [l]: a maximal run of
    digits that no digit follows. *)
Definition last_digit_run (l r : text) : Prop :=
  exists pre post,
    l = pre ++ r ++ post /\
    r <> [] /\
    forallb is_digit r = true /\
    forallb (fun c => negb (is_digit c)) post = true /\
    (pre = [] \/ exists pre' c, pre = pre' ++ [c] /\ is_digit c = false).

(** [int] accepts the run: it is within the interpreter's digit limit. *)
Definition int_accepts (limit : nat) (run : text) : bool :=
  negb ((640 <? length run) && (0 <? limit) && (limit <? length run)).

(** A frame of one digit 1 followed by [n] zeros: the code [10^n]. *)
Definition power_of_ten_frame (n : nat) : text :=
  txt "1" ++ repeat (ascii_of_nat 48) n.

(** The coefficients [scipy.signal.butter(4, 0.1)] returns, rounded to
    eight decimals. *)
Definition butter_4_tenth_b : list Q :=
  [41660 # 100000000; 166640 # 100000000; 249960 # 100000000;
   166640 # 100000000; 41660 # 100000000]%Q.

Definition butter_4_tenth_a : list Q :=
  [1; - (318063855 # 100000000); 386119435 # 100000000;
   - (211215536 # 100000000); 43826514 # 100000000]%Q.

(** A stand-in for [butter] at the only arguments [apply_filter] passes
    when the rate is estimated, order 4 and [Wn = 0.1]; like [butter], it
    refuses a [Wn] outside (0, 1). *)
Definition butter_low (order : nat) (Wn : Q) : outcome (list Q * list Q) :=
  if Qle_bool Wn 0 || Qle_bool 1 Wn then Raise ValueError
  else Ok (butter_4_tenth_b, butter_4_tenth_a).

(** The magnitudes of the discrete Fourier transform of a constant
    signal: the sum in bin 0 and nothing elsewhere. *)
Definition dft_abs_of_constant (x : list Q) : list Q :=
  Qabs (total x) :: repeat 0%Q (length x - 1).

(** What the claims call the controller state: the acquisition flag, the
    transport handle and the buffer. *)
Definition controller_state {V} (s : scope V)
    : bool * option Serial * list V * list V :=
  (is_running s, ser s, timestamps s, data s).

(** A scope with a given buffer and nothing else. *)
Definition with_buffer {V} (ts ds : list V) : scope V :=
  set_buffer ts ds (init V).

(** The operations that write the buffer, as the claims list them: an
    append by the reader, a confirmed or dismissed clear, an import. *)
Inductive buffer_op (V : Type) : Type :=
| OpAppend (t v : V)
| OpClear (yes : bool)
| OpImport (file_path : text) (content : option text).

Arguments OpAppend {V}.
Arguments OpClear {V}.
Arguments OpImport {V}.

Definition apply_op {V} (float_of_text : text -> outcome V)
    (s : scope V) (op : buffer_op V) : scope V :=
  match op with
  | OpAppend t v => append_sample max_data_points t v s
  | OpClear yes => final (clear_screen yes s)
  | OpImport file_path content =>
      final (open_signal float_of_text file_path content s)
  end.

(** A value survives the text file: its text is not empty, holds no
    whitespace, and reads back as the value. *)
Definition survives_text {V} (float_repr : V -> text)
    (float_of_text : text -> outcome V) (v : V) : Prop :=
  float_repr v <> [] /\
  forallb (fun c => negb (is_space c)) (float_repr v) = true /\
  float_of_text (float_repr v) = Ok v.

(** Whole numbers written in decimal: a number type whose text
    conversions can be run, for the examples. *)
Definition nat_repr (n : nat) : text :=
  list_ascii_of_string (NilZero.string_of_uint (Nat.to_uint n)).

Definition nat_of_text (t : text) : outcome nat :=
  match NilZero.uint_of_string (string_of_list_ascii t) with
  | Some u => Ok (Nat.of_uint u)
  | None => Raise ValueError
  end.

(** A text without whitespace, and a text without a line end. *)
Definition no_space (l : text) : Prop :=
  forallb (fun c => negb (is_space c)) l = true.

Definition no_newline (l : text) : Prop :=
  forallb (fun c => negb (Ascii.eqb c LF) && negb (Ascii.eqb c CR)) l = true.

(** An exported row without its line end. *)
Definition row_body {V} (float_repr : V -> text) (p : V * V) : text :=
  float_repr (fst p) ++ [SP] ++ float_repr (snd p).

(** ** Further notions used in the statements *)

(** Every element of a list of floats is strictly below every later one. *)
Fixpoint strictly_increasing (l : list float) : bool :=
  match l with
  | [] => true
  | x :: l' => forallb (fun y => SFltb x y) l' && strictly_increasing l'
  end.

(** The voltage the reader stores for an ADC code, nan when the
    conversion raises. *)
Definition voltage_of_code (adc_value : Z) : float :=
  match adc_to_voltage adc_value with
  | Ok v => v
  | Raise _ => S754_nan
  end.

(** The two ends of the converter's range: [-0.6] and the float just
    below [2.7] that code 4095 reads as. *)
Definition volts_min : float := S754_finite true 5404319552844595 (-53).
Definition volts_max : float := S754_finite false 6079859496950169 (-51).

(** ** The axis ranges of the plot *)

Section AxisRanges.
Context {V : Type} `{Arith V}.

(** Python's [max(a, b)]: [b] only when it is greater. *)
Definition py_max (a b : V) : V := if leb b a then a else b.

(** [auto_scale_y_axis] (lines 465-471): the range given to
    [setYRange], none for empty data. *)
Definition auto_scale_y_axis (data : list V) : option (V * V) :=
  match data with
  | [] => None
  | y :: ys =>
      let min_val := EPTScope.min_of y ys in
      let max_val := EPTScope.max_of y ys in
      let margin := mul (ratio 1 10) (sub max_val min_val) in
      Some (sub min_val margin, add max_val margin)
  end.

(** [auto_scale_x_axis] (lines 449-462): the range given to
    [setXRange], none for no timestamps. *)
Definition auto_scale_x_axis (timestamps : list V) (window_size : V)
    : option (V * V) :=
  match timestamps with
  | [] => None
  | t0 :: _ =>
      let latest_time := last timestamps t0 in
      if length timestamps =? 1 then
        Some (sub latest_time (div window_size (ratio 2 1)),
              add latest_time (div window_size (ratio 2 1)))
      else
        let start_time := py_max t0 (sub latest_time window_size) in
        Some (start_time, latest_time)
  end.

End AxisRanges.

(** The arithmetic mean of a list of rationals. *)
Definition mean (l : list Q) : Q := (total l / inject_Z (Z.of_nat (length l)))%Q.

(** All the values of a list lie between two bounds. *)
Definition within (lo hi : Q) (l : list Q) : Prop :=
  forall y, In y l -> (lo <= y <= hi)%Q.

(** ** The port selector *)

(** The combo box [com_select]: its items and the index of the current
    one, if any. *)
Record port_box : Type := mkBox {
  items : list string;
  current_index : option nat
}.

(** [QComboBox.currentText]: the text of the current item, empty when
    there is none. *)
Definition current_text (b : port_box) : string :=
  match current_index b with
  | Some i => nth i (items b) EmptyString
  | None => EmptyString
  end.

(** [QComboBox.findText]: the index of the first item equal to the
    text. *)
Fixpoint find_text (t : string) (l : list string) : option nat :=
  match l with
  | [] => None
  | x :: l' => if String.eqb x t then Some 0 else option_map S (find_text t l')
  end.

(** [QComboBox.clear] *)
Definition box_clear : port_box := mkBox [] None.

(** [QComboBox.addItems]: the items are appended, and the first one
    becomes current when the box was empty. *)
Definition add_items (texts : list string) (b : port_box) : port_box :=
  mkBox (items b ++ texts)
        (match items b, texts with
         | [], _ :: _ => Some 0
         | _, _ => current_index b
         end).

(** [QComboBox.setCurrentText] on a box that is not editable: the first
    item with that text becomes current, if there is one. *)
Definition set_current_text (t : string) (b : port_box) : port_box :=
  match find_text t (items b) with
  | Some i => mkBox (items b) (Some i)
  | None => b
  end.

(** [refresh_ports] (lines 249-279); [available_ports] is what
    [serial.tools.list_ports.comports()] lists. The tool tips are left
    out. *)
Definition refresh_ports {V} (available_ports : list string)
    (ui : port_box * scope V) : port_box * scope V :=
  let box := fst ui in
  let s := snd ui in
  let current_port :=
    if 0 <? length (items box) then current_text box else EmptyString in
  match available_ports with
  | _ :: _ =>
      let box2 := add_items available_ports box_clear in
      if existsb (String.eqb current_port) available_ports
      then (set_current_text current_port box2, s)
      else (box2, s)
  | [] =>
      (add_items ["No ports available"%string] box_clear,
       set_buttons (start_btn_enabled s) (pause_btn_enabled s) false
                   (baud_select_enabled s) s)
  end.

(** [closeEvent] (lines 603-608). *)
Definition closeEvent {V} (s : scope V) : scope V :=
  close_port (set_running false s).

(** ** The window as a state machine *)

(** What can happen to the window: a scan of the ports, a press of a
    button with what the environment answers, an iteration of the
    reader thread, a tick of the redraw timer, the closing of the
    window. *)
Inductive event : Type :=
| EvRefresh (available_ports : list string)
| EvStart (baud_rate : Z) (opens : bool)
| EvPause
| EvClear (yes : bool)
| EvFrame (input : rx) (elapsed : float)
| EvTick
| EvFilter
| EvFft
| EvOpen (file_path : text) (content : option text)
| EvClose.

Section Machine.
Variable limit : nat.
Variable butter : nat -> float -> outcome (list float * list float).
Variable fft_abs : list float -> list float.
Variable float_of_text : text -> outcome float.

(** One event. The reader iterates only while [is_running] holds and
    the port is open, and the timer fires only while it is active. *)
Definition step (ui : port_box * scope float) (e : event)
    : port_box * scope float :=
  let box := fst ui in
  let s := snd ui in
  match e with
  | EvRefresh available_ports => refresh_ports available_ports ui
  | EvStart baud_rate opens =>
      (box, final (start_signal (current_text box) baud_rate opens s))
  | EvPause => (box, final (pause_signal s))
  | EvClear yes => (box, final (clear_screen yes s))
  | EvFrame input elapsed =>
      if is_running s && port_is_open s
      then (box, final (read_frame limit input elapsed s))
      else ui
  | EvTick => if timer_active s then (box, final (update_plot s)) else ui
  | EvFilter => (box, final (apply_filter butter s))
  | EvFft => (box, final (compute_fft fft_abs s))
  | EvOpen file_path content =>
      (box, final (open_signal float_of_text file_path content s))
  | EvClose => (box, closeEvent s)
  end.

Definition run_events (events : list event) (ui : port_box * scope float)
    : port_box * scope float :=
  fold_left step events ui.

End Machine.

(** The window as [__init__] leaves it: the port selector is the second,
    still empty combo box that [initUI] creates. *)
Definition init_ui : port_box * scope float := (box_clear, init float).

(** While acquisition is flagged, the port is open and the redraw timer
    runs. *)
Definition live_while_running {V} (s : scope V) : bool :=
  implb (is_running s) (port_is_open s && timer_active s).

(** The port, the acquisition flag, the timer, the reader count and the
    four enabled flags: everything of a scope but the buffer and the
    drawings. *)
Definition controls {V} (s : scope V)
    : option Serial * bool * bool * nat * bool * bool * bool * bool :=
  (ser s, is_running s, timer_active s, readers s,
   start_btn_enabled s, pause_btn_enabled s,
   com_select_enabled s, baud_select_enabled s).

(** ** The point under the mouse *)

(** Python's [min(range(n), key=key)] and [np.argmin]: the first index
    whose key is least. [best] is the index kept so far. *)
Fixpoint argmin_scan (key : nat -> Q) (best : nat) (candidates : list nat) : nat :=
  match candidates with
  | [] => best
  | i :: rest =>
      argmin_scan key (if Qle_bool (key best) (key i) then best else i) rest
  end.

Definition first_argmin (key : nat -> Q) (n : nat) : nat :=
  argmin_scan key 0 (seq 1 (n - 1)).

(** The sum of two arrays under numpy's broadcasting: element by
    element for equal lengths, an array of one element against every
    element of the other, ValueError otherwise. *)
Definition np_add (a b : list Q) : outcome (list Q) :=
  if length a =? length b then
    Ok (map (fun p => (fst p + snd p)%Q) (combine a b))
  else match a, b with
       | [x], _ => Ok (map (fun y => (x + y)%Q) b)
       | _, [y] => Ok (map (fun x => (x + y)%Q) a)
       | _, _ => Raise ValueError
       end.

(** [find_nearest_point] (lines 589-601): the index of the sample
    nearest to the mouse, if it is closer than 0.1. [sqrt] is
    [np.sqrt]. *)
Definition find_nearest_point (sqrt : Q -> Q) (x_mouse y_mouse : Q)
    (s : scope Q) : outcome (option nat) :=
  match timestamps s, data s with
  | [], _ => Ok None
  | _, [] => Ok None
  | _ :: _, _ :: _ =>
      let dx2 := map (fun t => ((t - x_mouse) * (t - x_mouse))%Q) (timestamps s) in
      let dy2 := map (fun y => ((y - y_mouse) * (y - y_mouse))%Q) (data s) in
      sums <- np_add dx2 dy2 ;;
      let distances := map sqrt sums in
      let nearest_index :=
        first_argmin (fun i => nth i distances 0%Q) (length distances) in
      if Qle_bool (1 # 10) (nth nearest_index distances 0%Q)
      then Ok None
      else Ok (Some nearest_index)
  end.

(** The distance [find_nearest_point] computes for the sample [j]. *)
Definition distance_to (sqrt : Q -> Q) (x_mouse y_mouse : Q) (s : scope Q)
    (j : nat) : Q :=
  sqrt ((nth j (timestamps s) 0 - x_mouse) * (nth j (timestamps s) 0 - x_mouse)
        + (nth j (data s) 0 - y_mouse) * (nth j (data s) 0 - y_mouse))%Q.

(** ** More of the second window *)

Module EPTScopeView.

(** What [_on_hover] does to the label. *)
Inductive hover : Type :=
| LabelHidden
| LabelKept
| LabelShown (x y : Q).

(** [_on_hover] (lines 280-293); [inside] tells whether the mouse is
    over the plot and [x] is its position on the time axis. *)
Definition on_hover (inside : bool) (x : Q) (w : EPTScope.window Q)
    : outcome hover :=
  if negb inside then Ok LabelHidden
  else
    match EPTScope.buffer_t w with
    | [] => Ok LabelKept
    | _ :: _ =>
        let key := fun i => Qabs (nth i (EPTScope.buffer_t w) 0 - x)%Q in
        let idx := first_argmin key (length (EPTScope.buffer_t w)) in
        match nth_error (EPTScope.buffer_y w) idx with
        | Some y => Ok (LabelShown (nth idx (EPTScope.buffer_t w) 0%Q) y)
        | None => Raise IndexError
        end
    end.

(** [str.lower] on one character, for the code points below 256. *)
Definition lower_char (c : ascii) : ascii :=
  let n := code c in
  if ((65 <=? n) && (n <=? 90))
     || ((192 <=? n) && (n <=? 222) && negb (n =? 215))
  then ascii_of_nat (n + 32)
  else c.

Definition lower (l : text) : text := map lower_char l.

(** The file name [take_snapshot] (lines 384-392) exports to, none
    when the dialog is cancelled. *)
Definition snapshot_name (fn : text) : option text :=
  match fn with
  | [] => None
  | _ :: _ =>
      if endswith (lower fn) (txt ".png") then Some fn
      else Some (fn ++ txt ".png")
  end.

(** The trigger line: the [InfiniteLine] objects on the plot, each with
    the number of its creation and its level, and the one the window
    remembers. *)
Record trigger (V : Type) : Type := mkTrigger {
  created : nat;
  trigger_line : option (nat * V);
  plot_lines : list (nat * V)
}.

Arguments mkTrigger {V}.

Definition remove_line {V} (id : nat) (lines : list (nat * V)) : list (nat * V) :=
  filter (fun l => negb (fst l =? id)) lines.

(** [change_threshold] (lines 359-367) on the text of the field; only
    ValueError is caught. *)
Definition change_threshold {V} (float_of_text : text -> outcome V)
    (field : text) (g : trigger V) : outcome (trigger V) :=
  match float_of_text field with
  | Raise ValueError => Ok g
  | Raise e => Raise e
  | Ok val =>
      let lines :=
        match trigger_line g with
        | Some old => remove_line (fst old) (plot_lines g)
        | None => plot_lines g
        end in
      let line := (created g, val) in
      Ok (mkTrigger (S (created g)) (Some line) (lines ++ [line]))
  end.

(** The field edited several times in a row. *)
Fixpoint change_thresholds {V} (float_of_text : text -> outcome V)
    (fields : list text) (g : trigger V) : outcome (trigger V) :=
  match fields with
  | [] => Ok g
  | field :: rest =>
      g' <- change_threshold float_of_text field g ;;
      change_thresholds float_of_text rest g'
  end.

(** The last of the texts that is a number, as a number. *)
Definition latest_level {V} (float_of_text : text -> outcome V)
    (fields : list text) (before : option V) : option V :=
  fold_left (fun level field =>
               match float_of_text field with
               | Ok val => Some val
               | Raise _ => level
               end) fields before.

(** *** The recorder *)

(** A row of the recorded file: the header, or a time of day and a
    value. *)
Inductive row (T V : Type) : Type :=
| Header
| Sample (now : T) (value : V).

Arguments Header {T V}.
Arguments Sample {T V}.

(** The message box of the recorder. *)
Inductive box : Type :=
| RecordSaved.

(** The window with its Record button: [record_fh] holds the rows given
    to the open writer, [said] the message boxes shown. *)
Record recording (T V : Type) : Type := mkRecording {
  win : EPTScope.window V;
  rec_checked : bool;
  record_fh : option (list (row T V));
  said : list box
}.

Arguments mkRecording {T V}.

(** [toggle_recording] (lines 369-382) as the slot of [rec_btn.toggled];
    [fn] is the answer of the save dialog. Unchecking the button from
    inside the slot emits [toggled(False)] and so runs the slot once
    more. *)
Definition toggle_recording {T V} (rec : bool) (fn : text) (r : recording T V)
    : recording T V :=
  let stop := fun r0 : recording T V =>
    mkRecording (win r0) false None (said r0 ++ [RecordSaved]) in
  if rec then
    match fn with
    | [] => stop (mkRecording (win r) true (record_fh r) (said r))
    | _ :: _ => mkRecording (win r) true (Some [Header]) (said r)
    end
  else stop r.

(** [update_plot] (lines 335-341) at a tick of the timer; [now] is the
    time of day. *)
Definition update_plot {T V} (now : T) (r : recording T V) : recording T V :=
  let w := win r in
  if negb (EPTScope.is_running w) then r
  else
    match EPTScope.buffer_t w, rev (EPTScope.buffer_y w) with
    | _ :: _, latest :: _ =>
        let w' := EPTScope.mkWindow (EPTScope.buffer_t w) (EPTScope.buffer_y w)
                    (EPTScope.is_running w)
                    (EPTScope.buffer_t w, EPTScope.buffer_y w)
                    (EPTScope.fft_window w) in
        match rec_checked r, record_fh r with
        | true, Some rows =>
            mkRecording w' true (Some (rows ++ [Sample now latest])) (said r)
        | _, _ => mkRecording w' (rec_checked r) (record_fh r) (said r)
        end
    | _, _ => r
    end.

(** The timer ticking at the times [nows]. *)
Definition ticks {T V} (nows : list T) (r : recording T V) : recording T V :=
  fold_left (fun r0 now => update_plot now r0) nows r.

End EPTScopeView.

(* ===================================================================== *)
(** * Properties *)
(* ===================================================================== *)

(** ** Buffer lemmas *)

Section Buffer.
Context {V : Type}.
Implicit Types (s : scope V) (l : list V).

Lemma lastn_length n l : length (lastn n l) = Nat.min n (length l).
Proof. unfold lastn. rewrite length_skipn. lia. Qed.

Lemma lastn_all n l : length l <= n -> lastn n l = l.
Proof.
  intros H. unfold lastn.
  replace (length l - n) with 0 by lia. reflexivity.
Qed.

Lemma tl_skipn l k : tl (skipn k l) = skipn (S k) l.
Proof.
  revert l. induction k as [|k IH]; intros [|x l]; simpl; auto.
Qed.

(** Appending to a window and trimming is the window of the longer list. *)
Lemma lastn_snoc n l x :
  lastn n (l ++ [x]) =
  if n <? length (lastn n l ++ [x]) then tl (lastn n l ++ [x]) else lastn n l ++ [x].
Proof.
  unfold lastn. rewrite !length_app, length_skipn. simpl.
  destruct (Nat.ltb_spec n (length l - (length l - n) + 1)) as [Hlt|Hge].
  - assert (Hn : n <= length l) by lia.
    replace (length l + 1 - n) with (S (length l - n)) by lia.
    rewrite <- tl_skipn, skipn_app.
    replace (length l - n - length l) with 0 by lia.
    reflexivity.
  - replace (length l - n) with 0 by lia.
    replace (length l + 1 - n) with 0 by lia. reflexivity.
Qed.

Lemma append_sample_data cap t v s :
  data (append_sample cap t v s) =
  if cap <? length (data s ++ [v]) then tl (data s ++ [v]) else data s ++ [v].
Proof. unfold append_sample. destruct (cap <? _); reflexivity. Qed.

Lemma append_sample_timestamps cap t v s :
  timestamps (append_sample cap t v s) =
  if cap <? length (data s ++ [v]) then tl (timestamps s ++ [t]) else timestamps s ++ [t].
Proof. unfold append_sample. destruct (cap <? _); reflexivity. Qed.

Lemma append_sample_aligned cap t v s :
  aligned s -> aligned (append_sample cap t v s).
Proof.
  unfold aligned. intros H.
  rewrite append_sample_data, append_sample_timestamps.
  destruct (cap <? _).
  - destruct (timestamps s), (data s); simpl in *; try discriminate;
      rewrite ?length_app; simpl; lia.
  - rewrite !length_app. simpl. lia.
Qed.

(** The window invariant of a run of appends: both lists are the last
    [cap] elements of everything seen so far. *)
Lemma append_all_window cap (xs : list (V * V)) s ts0 ds0 :
  length ts0 = length ds0 ->
  timestamps s = lastn cap ts0 ->
  data s = lastn cap ds0 ->
  timestamps (append_all cap xs s) = lastn cap (ts0 ++ map fst xs) /\
  data (append_all cap xs s) = lastn cap (ds0 ++ map snd xs).
Proof.
  revert s ts0 ds0. induction xs as [|[t v] xs IH]; intros s ts0 ds0 Hlen Ht Hd.
  - simpl. rewrite !app_nil_r. auto.
  - simpl.
    replace (ts0 ++ t :: map fst xs) with ((ts0 ++ [t]) ++ map fst xs)
      by (rewrite <- app_assoc; reflexivity).
    replace (ds0 ++ v :: map snd xs) with ((ds0 ++ [v]) ++ map snd xs)
      by (rewrite <- app_assoc; reflexivity).
    apply IH.
    + rewrite !length_app. simpl. lia.
    + rewrite append_sample_timestamps, Ht, Hd, (lastn_snoc cap ts0 t).
      rewrite !length_app, !lastn_length, Hlen. reflexivity.
    + rewrite append_sample_data, Hd. symmetry. apply lastn_snoc.
Qed.

End Buffer.

(** ** C1 *)

(** C1. Starting from an emptied buffer (what [start_signal] leaves), after
  any run of appends with the capacity [max_data_points] = 1000 neither
  list is longer than 1000, and both lists hold exactly the last 1000
  appended timestamps and values, in the order they were appended: once
  the buffer is full each append evicts the single oldest entry. *)
Theorem append_keeps_last_1000 :
forall (V : Type) (s0 : scope V) (xs : list (V * V)),
  let s := append_all max_data_points xs (set_buffer [] [] s0) in
  length (data s) <= 1000 /\
  length (timestamps s) <= 1000 /\
  data s = lastn 1000 (map snd xs) /\
  timestamps s = lastn 1000 (map fst xs).
Proof.
intros V s0 xs s.
destruct (@append_all_window V max_data_points xs (set_buffer [] [] s0) [] [])
  as [Ht Hd]; try reflexivity.
simpl in Ht, Hd. fold s in Ht, Hd.
change max_data_points with 1000 in *.
rewrite Ht, Hd. repeat split.
- rewrite lastn_length. lia.
- rewrite lastn_length. lia.
Qed.

(** The scenario of the specification: capacity 3, four appends. *)
Example append_capacity_3 :
let s := append_all 3 [(0, 1); (1, 2); (2, 3); (3, 4)] (init nat) in
combine (timestamps s) (data s) = [(1, 2); (2, 3); (3, 4)].
Proof. reflexivity. Qed.

(** With 1000 + k appends the window starts at the k-th sample. *)
Lemma append_overflow_by (V : Type) (s0 : scope V) (xs : list (V * V)) (k : nat) :
length xs = 1000 + k ->
let s := append_all max_data_points xs (set_buffer [] [] s0) in
data s = skipn k (map snd xs) /\ timestamps s = skipn k (map fst xs).
Proof.
intros Hk s. destruct (append_keeps_last_1000 s0 xs) as (_ & _ & Hd & Ht).
fold s in Hd, Ht. rewrite Hd, Ht. unfold lastn. rewrite !length_map, Hk.
replace (1000 + k - 1000) with k by lia. auto.
Qed.

(** ** Text lemmas *)

Section TextLemmas.
Implicit Types (l cur r : text) (c : ascii).

Lemma is_digit_not_space c : is_digit c = true -> is_space c = false.
Proof.
  unfold is_digit, is_space. cbv zeta. generalize (code c). intros n Hd.
  apply andb_true_iff in Hd. destruct Hd as [H1 H2].
  apply Nat.leb_le in H1, H2.
  repeat (apply orb_false_iff; split);
    try (apply andb_false_iff;
         destruct (Nat.leb_spec 9 n), (Nat.leb_spec n 13),
                  (Nat.leb_spec 28 n), (Nat.leb_spec n 32); auto; lia);
    apply Nat.eqb_neq; lia.
Qed.

Lemma is_space_not_digit c : is_space c = true -> is_digit c = false.
Proof.
  intros Hs. destruct (is_digit c) eqn:Hd; auto.
  apply is_digit_not_space in Hd. congruence.
Qed.

(** [lstrip] removes a prefix of whitespace. *)
Lemma lstrip_prefix l :
  exists ws, l = ws ++ lstrip l /\ forallb is_space ws = true.
Proof.
  induction l as [|c l IH]; simpl.
  - exists []. auto.
  - destruct (is_space c) eqn:Hc.
    + destruct IH as (ws & Heq & Hws). exists (c :: ws). simpl.
      rewrite Hc, Hws. split; [f_equal; exact Heq | reflexivity].
    + exists []. auto.
Qed.

(** [rstrip] removes a suffix of whitespace. *)
Lemma rstrip_suffix l :
  exists ws, l = rstrip l ++ ws /\ forallb is_space ws = true.
Proof.
  unfold rstrip. destruct (lstrip_prefix (rev l)) as (ws & Heq & Hws).
  exists (rev ws). split.
  - rewrite <- rev_app_distr, <- Heq, rev_involutive. reflexivity.
  - rewrite forallb_forall in *. intros x Hx. apply Hws.
    apply in_rev. exact Hx.
Qed.

Lemma lstrip_fixed c l : is_space c = false -> lstrip (c :: l) = c :: l.
Proof. intros Hc. simpl. rewrite Hc. reflexivity. Qed.

Lemma lstrip_app_fixed l c l' :
  forallb is_space l = true -> is_space c = false ->
  lstrip (l ++ c :: l') = c :: l'.
Proof.
  induction l as [|a l IH]; simpl; intros Hl Hc.
  - rewrite Hc. reflexivity.
  - apply andb_true_iff in Hl. destruct Hl as [Ha Hl]. rewrite Ha. auto.
Qed.

(** A row that starts and ends with a character that is not whitespace,
    followed by whitespace, is stripped to itself. *)
Lemma strip_row c l d ws :
  is_space c = false -> is_space d = false -> forallb is_space ws = true ->
  strip ((c :: l ++ [d]) ++ ws) = c :: l ++ [d].
Proof.
  intros Hc Hd Hws. unfold strip, rstrip.
  simpl app. rewrite lstrip_fixed by exact Hc.
  assert (Hrev : rev (c :: (l ++ [d]) ++ ws) = rev ws ++ d :: rev (c :: l)).
  { change (c :: (l ++ [d]) ++ ws) with (((c :: l) ++ [d]) ++ ws).
    rewrite !rev_app_distr. reflexivity. }
  rewrite Hrev, lstrip_app_fixed.
  - change (d :: rev (c :: l)) with (rev [d] ++ rev (c :: l)).
    rewrite <- rev_app_distr, rev_involutive. reflexivity.
  - rewrite forallb_forall in *. intros x Hx. apply Hws.
    apply in_rev. exact Hx.
  - exact Hd.
Qed.

(** *** Digit runs *)

Lemma findall_from_nondigit cur c l :
  is_digit c = false ->
  findall_from cur (c :: l) =
  match cur with [] => findall_from [] l | _ => cur :: findall_from [] l end.
Proof. intros Hc. simpl. rewrite Hc. reflexivity. Qed.

(** A non-digit splits the search in two. *)
Lemma findall_from_split cur l1 c l2 :
  is_digit c = false ->
  findall_from cur (l1 ++ c :: l2) =
  findall_from cur (l1 ++ [c]) ++ findall_from [] l2.
Proof.
  revert cur. induction l1 as [|a l1 IH]; intros cur Hc.
  - simpl. rewrite Hc. destruct cur; reflexivity.
  - simpl. destruct (is_digit a).
    + apply IH. exact Hc.
    + destruct cur; simpl; rewrite IH by exact Hc; reflexivity.
Qed.

Lemma findall_from_snoc_nondigit cur l c :
  is_digit c = false ->
  findall_from cur (l ++ [c]) = findall_from cur l.
Proof.
  revert cur. induction l as [|a l IH]; intros cur Hc.
  - simpl. rewrite Hc. destruct cur; reflexivity.
  - simpl. destruct (is_digit a).
    + apply IH. exact Hc.
    + destruct cur; rewrite IH by exact Hc; reflexivity.
Qed.

Lemma findall_from_app_nondigits cur l ws :
  forallb (fun c => negb (is_digit c)) ws = true ->
  findall_from cur (l ++ ws) = findall_from cur l.
Proof.
  revert l. induction ws as [|c ws IH]; intros l Hws.
  - rewrite app_nil_r. reflexivity.
  - simpl in Hws. apply andb_true_iff in Hws. destruct Hws as [Hc Hws].
    apply negb_true_iff in Hc.
    change (l ++ c :: ws) with (l ++ [c] ++ ws). rewrite app_assoc.
    rewrite IH by exact Hws. apply findall_from_snoc_nondigit. exact Hc.
Qed.

(** A run of digits followed by no more digits is read as one run. *)
Lemma findall_from_run cur r post :
  forallb is_digit r = true ->
  forallb (fun c => negb (is_digit c)) post = true ->
  cur ++ r <> [] ->
  findall_from cur (r ++ post) = [cur ++ r].
Proof.
  revert cur. induction r as [|a r IH]; intros cur Hr Hpost Hne.
  - simpl. rewrite app_nil_r in *.
    change post with ([] ++ post).
    rewrite findall_from_app_nondigits by exact Hpost.
    destruct cur; [contradiction | reflexivity].
  - simpl in Hr. apply andb_true_iff in Hr. destruct Hr as [Ha Hr].
    simpl. rewrite Ha. rewrite IH; auto.
    + rewrite <- app_assoc. reflexivity.
    + rewrite <- app_assoc. simpl. exact Hne.
Qed.

Lemma spaces_nondigits ws :
  forallb is_space ws = true ->
  forallb (fun c => negb (is_digit c)) ws = true.
Proof.
  rewrite !forallb_forall. intros H x Hx.
  rewrite (is_space_not_digit x); auto.
Qed.

(** Stripping removes no digit, so it changes no run. *)
Lemma findall_digits_strip l : findall_digits (strip l) = findall_digits l.
Proof.
  unfold findall_digits, strip.
  destruct (lstrip_prefix l) as (ws1 & H1 & Hw1).
  destruct (rstrip_suffix (lstrip l)) as (ws2 & H2 & Hw2).
  rewrite H1 at 2. rewrite H2 at 2.
  rewrite <- (findall_from_app_nondigits [] (rstrip (lstrip l)) ws2)
    by (apply spaces_nondigits; exact Hw2).
  generalize (rstrip (lstrip l) ++ ws2). intros m.
  clear H1. induction ws1 as [|c ws1 IH]; simpl; auto.
  simpl in Hw1. apply andb_true_iff in Hw1. destruct Hw1 as [Hc Hw1].
  rewrite (is_space_not_digit c Hc). auto.
Qed.

Lemma findall_digits_last l r :
  last_digit_run l r -> exists runs, findall_digits l = runs ++ [r].
Proof.
  intros (pre & post & Hl & Hne & Hr & Hpost & Hpre). subst l.
  unfold findall_digits. destruct Hpre as [Hpre | (pre' & c & Hpre & Hc)].
  - subst pre. exists []. simpl app.
    apply (findall_from_run [] r post); auto.
  - subst pre. rewrite <- app_assoc. simpl app.
    rewrite findall_from_split by exact Hc.
    exists (findall_from [] (pre' ++ [c])). f_equal.
    apply (findall_from_run [] r post); auto.
Qed.

Lemma findall_digits_none l :
  forallb (fun c => negb (is_digit c)) l = true -> findall_digits l = [].
Proof.
  intros H. unfold findall_digits.
  rewrite <- (app_nil_l l), findall_from_app_nondigits by exact H.
  reflexivity.
Qed.

End TextLemmas.

(** ** The reader: C3 *)

Section ReaderLemmas.
Variable limit : nat.

Lemma python_int_accepted run :
  int_accepts limit run = true -> python_int limit run = Ok (decimal_value run).
Proof.
  unfold int_accepts, python_int. intros H. apply negb_true_iff in H.
  rewrite H. reflexivity.
Qed.

Lemma map_python_int runs :
  forallb (int_accepts limit) runs = true ->
  map_outcome (python_int limit) runs = Ok (map decimal_value runs).
Proof.
  induction runs as [|r runs IH]; simpl; intros H; auto.
  apply andb_true_iff in H. destruct H as [Hr Hruns].
  rewrite (python_int_accepted r Hr). simpl. rewrite IH by exact Hruns.
  reflexivity.
Qed.

(** A frame without a digit is dropped: nothing is appended and nothing
    is printed. *)
Lemma read_frame_no_digit line elapsed s :
  forallb (fun c => negb (is_digit c)) line = true ->
  read_frame limit (RxLine line) elapsed s = mkRun s [] None.
Proof.
  intros H. unfold read_frame, read_frame_body. simpl.
  rewrite findall_digits_strip, (findall_digits_none line H). reflexivity.
Qed.

(** What [read_frame] does with a frame is decided by its last run. *)
Lemma read_frame_last_run line runs r elapsed s :
  findall_digits line = runs ++ [r] ->
  forallb (int_accepts limit) (findall_digits line) = true ->
  read_frame limit (RxLine line) elapsed s =
  match adc_to_voltage (decimal_value r) with
  | Ok v => mkRun (append_sample max_data_points elapsed v s) [PrintVoltage] None
  | Raise ValueError => mkRun s [PrintInvalidData] None
  | Raise SerialException =>
      mkRun (close_port (set_timer false (set_running false s)))
            [PrintSerialError] None
  | Raise e => mkRun s [] (Some e)
  end.
Proof.
  intros Hruns Hacc. unfold read_frame, read_frame_body.
  cbn [receive bind].
  rewrite findall_digits_strip, (map_python_int _ Hacc), Hruns.
  rewrite map_app. change (map decimal_value [r]) with [decimal_value r].
  destruct (map decimal_value runs ++ [decimal_value r]) eqn:Hn.
  - destruct (map decimal_value runs); discriminate.
  - assert (Hl : last (z :: l) 0%Z = decimal_value r)
      by (rewrite <- Hn; apply last_last).
    cbn [bind]. rewrite Hl.
    destruct (adc_to_voltage (decimal_value r)) as [v|[]]; reflexivity.
Qed.

(** A frame whose runs [int] accepts and whose last run converts to the
    voltage [v] appends exactly the sample [(elapsed, v)]. *)
Lemma read_frame_sample line r elapsed s v :
  last_digit_run line r ->
  forallb (int_accepts limit) (findall_digits line) = true ->
  adc_to_voltage (decimal_value r) = Ok v ->
  read_frame limit (RxLine line) elapsed s =
  mkRun (append_sample max_data_points elapsed v s) [PrintVoltage] None.
Proof.
  intros Hlast Hacc Hv.
  destruct (findall_digits_last Hlast) as (runs & Hruns).
  rewrite (@read_frame_last_run line runs r elapsed s Hruns Hacc), Hv.
  reflexivity.
Qed.

End ReaderLemmas.

(** Every code of the 12-bit converter, 0 to 4095, converts. *)
Lemma adc_in_range_converts (adc : Z) :
  (0 <= adc <= 4095)%Z -> exists v, adc_to_voltage adc = Ok v.
Proof.
  intros Hr.
  assert (Hall : forallb (fun n => match adc_to_voltage (Z.of_nat n) with
                                   | Ok _ => true | Raise _ => false end)
                         (seq 0 4096) = true) by (vm_compute; reflexivity).
  rewrite forallb_forall in Hall.
  specialize (Hall (Z.to_nat adc)).
  rewrite Z2Nat.id in Hall by lia.
  destruct (adc_to_voltage adc) as [v|e].
  - exists v. reflexivity.
  - assert (false = true); [|discriminate].
    apply Hall. apply in_seq. lia.
Qed.

(** The full-scale code 4095 reads as the float nearest to 2.7 from
    below, 3.3 - 0.6 computed in binary64. *)
Example full_scale_voltage :
  adc_to_voltage 4095 = Ok (S754_finite false 6079859496950169 (-51)).
Proof. vm_compute. reflexivity. Qed.

(** The literals are the floats nearest to 33/10 and 6/10. *)
Example literals_rounded :
  ratio (V := float) 33 10 = vref /\ ratio (V := float) 6 10 = offset.
Proof. split; vm_compute; reflexivity. Qed.

(** The division raises on the frame of 401 digits, whatever the digit
    limit and the state. *)
Lemma overflow_frame_raises (limit : nat) (elapsed : float) (s : scope float) :
  read_frame limit (RxLine (power_of_ten_frame 400)) elapsed s =
  mkRun s [] (Some OverflowError).
Proof.
  assert (Hruns : findall_digits (power_of_ten_frame 400) =
                  [] ++ [power_of_ten_frame 400])
    by (vm_compute; reflexivity).
  assert (Hacc : forallb (int_accepts limit)
                   (findall_digits (power_of_ten_frame 400)) = true)
    by (vm_compute; reflexivity).
  assert (Hv : adc_to_voltage (decimal_value (power_of_ten_frame 400)) =
               Raise OverflowError)
    by (vm_compute; reflexivity).
  rewrite (@read_frame_last_run limit _ _ _ elapsed s Hruns Hacc), Hv.
  reflexivity.
Qed.

(** C3, at the frame made of the digit 1 and 400 zeros. The frame is one
    run of digits, so a sample is due; but the quotient [10^400 / 4095]
    is too large for a float, the division raises OverflowError, neither
    [except] clause catches it, nothing is appended and the exception
    ends the reader thread. This holds for every digit limit of [int]
    and every state. *)
Theorem read_frame_overflow :
  forall (limit : nat) (elapsed : float) (s : scope float),
    findall_digits (power_of_ten_frame 400) = [power_of_ten_frame 400] /\
    decimal_value (power_of_ten_frame 400) = (10 ^ 400)%Z /\
    read_frame limit (RxLine (power_of_ten_frame 400)) elapsed s =
    mkRun s [] (Some OverflowError).
Proof.
  intros limit elapsed s. split; [|split].
  - vm_compute. reflexivity.
  - vm_compute. reflexivity.
  - apply overflow_frame_raises.
Qed.

(** If the frame arrives while the reader runs, the loop ends there:
    the frames after it are never read. *)
Lemma read_data_ends_on_overflow limit elapsed rest (s : scope float) :
  is_running s = true -> port_is_open s = true ->
  read_data limit ((RxLine (power_of_ten_frame 400), elapsed) :: rest) s =
  mkRun s [] (Some OverflowError).
Proof.
  intros Hrun Hopen. cbn [read_data]. rewrite Hrun, Hopen.
  rewrite overflow_frame_raises. reflexivity.
Qed.

(** ** Moving average: C2 *)

Section ConvolveLemmas.
Context {V : Type} `{Arith V}.
Implicit Types (a v data : list V).

Lemma correlate_valid_length a v :
  length (correlate_valid a v) = length a - length v + 1.
Proof. unfold correlate_valid. rewrite length_map, length_seq. reflexivity. Qed.

Lemma ones_over_length n : length (ones_over (V := V) n) = n.
Proof. apply repeat_length. Qed.

(** With at least a window of samples there is one output per position
    of the window. *)
Lemma moving_average_full data w :
  0 < w <= length data ->
  exists out, moving_average data w = Ok out /\ length out = length data - w + 1.
Proof.
  intros Hw. unfold moving_average, np_convolve_valid.
  rewrite ones_over_length.
  destruct (Nat.ltb_spec (length data) w) as [Hlt|Hge]; [lia|].
  destruct (Nat.eqb_spec (length data) 0) as [H0|_]; [lia|].
  rewrite ones_over_length.
  destruct (Nat.eqb_spec w 0) as [H0|_]; [lia|].
  eexists. split; [reflexivity|].
  rewrite correlate_valid_length, length_rev, ones_over_length. reflexivity.
Qed.

(** With fewer samples than the window, numpy exchanges the two
    arguments: the samples slide over the kernel, and the result is
    not empty. *)
Lemma moving_average_short data w :
  0 < length data < w ->
  exists out, moving_average data w = Ok out /\ length out = w - length data + 1.
Proof.
  intros Hw. unfold moving_average, np_convolve_valid.
  rewrite ones_over_length.
  destruct (Nat.ltb_spec (length data) w) as [Hlt|Hge]; [|lia].
  rewrite ones_over_length.
  destruct (Nat.eqb_spec w 0) as [H0|_]; [lia|].
  destruct (Nat.eqb_spec (length data) 0) as [H0|_]; [lia|].
  eexists. split; [reflexivity|].
  rewrite correlate_valid_length, length_rev, ones_over_length. reflexivity.
Qed.

(** An empty signal or a window of 0 is refused by [np.convolve]. *)
Lemma moving_average_refused data w :
  data = [] \/ w = 0 -> moving_average data w = Raise ValueError.
Proof.
  intros Hw. unfold moving_average, np_convolve_valid.
  rewrite ones_over_length.
  destruct (Nat.ltb_spec (length data) w) as [Hlt|Hge];
    rewrite ?ones_over_length.
  - destruct (Nat.eqb_spec w 0) as [H0|_]; [reflexivity|].
    destruct (Nat.eqb_spec (length data) 0) as [H0|Hn]; [reflexivity|].
    destruct Hw as [Hd|Hw0]; [subst data; simpl in Hn; lia | lia].
  - destruct (Nat.eqb_spec (length data) 0) as [H0|Hn]; [reflexivity|].
    destruct (Nat.eqb_spec w 0) as [H0|Hw0]; [reflexivity|].
    destruct Hw as [Hd|Hw1]; [subst data; simpl in Hn; lia | lia].
Qed.

End ConvolveLemmas.

(** *** The values, in exact arithmetic *)

Section ExactMean.
Local Open Scope Q_scope.

Lemma total_acc (l : list Q) (acc : Q) :
  (fold_left Qplus l acc == acc + fold_left Qplus l 0)%Q.
Proof.
  revert acc. induction l as [|x l IH]; intros acc; simpl.
  - ring.
  - rewrite (IH (acc + x)), (IH (0 + x)). ring.
Qed.

(** The inner product with a constant kernel is the constant times the
    sum of the window. *)
Lemma dot_constant (c : Q) (w : nat) (a : list Q) (acc : Q) :
  (fold_left Qplus
    (map (fun p => fst p * snd p) (combine a (repeat c w))) acc
  == acc + c * fold_left Qplus (firstn w a) 0)%Q.
Proof.
  revert a acc. induction w as [|w IH]; intros a acc.
  - rewrite combine_nil. simpl. ring.
  - destruct a as [|x a]; simpl; [ring|].
    rewrite IH, (total_acc (firstn w a) (0 + x)). ring.
Qed.

Lemma rev_constant (A : Type) (c : A) (n : nat) : rev (repeat c n) = repeat c n.
Proof.
  induction n as [|n IH]; simpl; auto.
  rewrite IH. symmetry. apply (repeat_cons n c).
Qed.

(** Each output of the moving average is the arithmetic mean of the
    [w] samples that start at its position. *)
Lemma moving_average_mean (data : list Q) (w : nat) (out : list Q) (i : nat) :
  (0 < w <= length data)%nat ->
  moving_average data w = Ok out ->
  (i < length data - w + 1)%nat ->
  (nth i out 0 == total (firstn w (skipn i data)) / inject_Z (Z.of_nat w))%Q.
Proof.
  intros Hw Hout Hi. unfold moving_average, np_convolve_valid in Hout.
  rewrite !ones_over_length in Hout.
  destruct (Nat.ltb_spec (length data) w) as [Hlt|Hge]; [lia|].
  destruct (Nat.eqb_spec (length data) 0) as [H0|_]; [lia|].
  rewrite ones_over_length in Hout.
  destruct (Nat.eqb_spec w 0) as [H0|_]; [lia|].
  injection Hout as <-.
  unfold correlate_valid.
  rewrite length_rev, ones_over_length.
  rewrite (nth_indep _ 0%Q (dot (skipn 0 data) (rev (ones_over w))))
    by (rewrite length_map, length_seq; exact Hi).
  rewrite (map_nth (fun k => dot (skipn k data) (rev (ones_over w)))).
  rewrite seq_nth by exact Hi. simpl Nat.add.
  unfold ones_over. rewrite rev_constant. unfold dot, total.
  cbn [add sub mul div ratio Q_Arith of_nat].
  rewrite dot_constant.
  assert (Hwq : ~ (inject_Z (Z.of_nat w) == 0)%Q).
  { unfold Qeq. simpl. lia. }
  rewrite (total_acc _ (inject_Z 0 / inject_Z 1)).
  change (inject_Z 0) with 0. change (inject_Z 1) with 1.
  generalize (fold_left Qplus (firstn w (skipn i data)) 0). intros T.
  field. exact Hwq.
Qed.

End ExactMean.

(** The scenario of the specification: three samples, a window of 2. *)
Example moving_average_scenario :
  exists a b, moving_average (V := Q) [1; 2; 3]%Q 2 = Ok [a; b] /\
              (a == 3 # 2)%Q /\ (b == 5 # 2)%Q.
Proof. do 2 eexists. split; [vm_compute; reflexivity|]. split; reflexivity. Qed.

(** C2, at three samples and the window of 5 that [update_plot] uses.
    The window is longer than the signal, so the result should be
    empty; [np.convolve] exchanges its arguments instead and returns
    [5 - 3 + 1 = 3] values, each the sum of the three samples divided
    by 5, which is the mean of no window. *)
Theorem moving_average_short_input :
  exists out,
    moving_average (V := Q) [1; 2; 3]%Q 5 = Ok out /\
    length out = 3 /\
    out <> [] /\
    Forall (fun y => (y == 6 # 5)%Q) out.
Proof.
  eexists. split; [vm_compute; reflexivity|].
  split; [reflexivity|]. split; [discriminate|].
  repeat constructor.
Qed.

(** With one sample in the buffer, [update_plot] hands [setData] one
    timestamp and five values. *)
Lemma update_plot_one_sample (t y : Q) (s : scope Q) :
  data s = [y] -> timestamps s = [t] ->
  exists ys, curve (final (update_plot s)) = ([t], ys) /\ length ys = 5.
Proof.
  intros Hd Ht. unfold update_plot. rewrite Hd, Ht.
  eexists. split; reflexivity.
Qed.

(** ** The controller: C5 and C9 *)

Section Controller.
Context {V : Type}.
Implicit Types (s : scope V).

Lemma close_port_idempotent s : close_port (close_port s) = close_port s.
Proof.
  unfold close_port. destruct (ser s) as [h|] eqn:Hs.
  - destruct (is_open h) eqn:Ho; simpl; [reflexivity|].
    rewrite Hs, Ho. reflexivity.
  - rewrite Hs. reflexivity.
Qed.

Lemma pause_signal_idempotent s :
  final (pause_signal (final (pause_signal s))) = final (pause_signal s).
Proof.
  unfold pause_signal. simpl final.
  destruct s as [h d t r tm n b1 b2 b3 b4 c f].
  destruct h as [[p b o]|]; [destruct o|]; reflexivity.
Qed.


(** What [start_signal] does to the buffer. *)
Lemma start_signal_buffer com_port baud_rate opens s :
  let r := start_signal com_port baud_rate opens s in
  (timestamps (final r), data (final r)) =
  if negb (String.eqb com_port "No ports available") && opens
  then ([], [])
  else (timestamps s, data s).
Proof.
  unfold start_signal.
  destruct (String.eqb com_port "No ports available"), opens; reflexivity.
Qed.

End Controller.

(** The claim C5 fails at a paused scope that holds one sample: start,
    one append, pause, then start again. The second start empties the
    buffer. *)
Lemma resume_drops_history :
  let running := final (start_signal "COM3" 115200 true (init Q)) in
  let paused := final (pause_signal (append_sample max_data_points 0%Q 1%Q running)) in
  is_running paused = false /\
  data paused = [1%Q] /\ timestamps paused = [0%Q] /\
  data (final (start_signal "COM3" 115200 true paused)) = [] /\
  timestamps (final (start_signal "COM3" 115200 true paused)) = [] /\
  data (final (start_signal "COM3" 115200 true paused)) <> data paused.
Proof. repeat split. discriminate. Qed.

(** C5, amended. [start_signal] empties the buffer whenever the port
    opens, from a paused scope as from a fresh one: resuming does not
    keep the history. The buffer is left as it was exactly when the
    start is refused for want of a port or the port fails to open. *)
Theorem start_signal_resets_buffer :
  forall (V : Type) (com_port : string) (baud_rate : Z) (opens : bool)
         (s : scope V),
    let r := start_signal com_port baud_rate opens s in
    (timestamps (final r), data (final r)) =
    (if negb (String.eqb com_port "No ports available") && opens
     then ([], [])
     else (timestamps s, data s)) /\
    (shown r = [] <->
     negb (String.eqb com_port "No ports available") && opens = true).
Proof.
  intros V com_port baud_rate opens s r. split.
  - apply start_signal_buffer.
  - unfold r, start_signal.
    destruct (String.eqb com_port "No ports available"), opens; simpl;
      split; intros H; try reflexivity; discriminate.
Qed.

(** The claim C9 fails at a running scope: the second [pause_signal]
    reports nothing, and so does a second [start_signal] when the port
    opens again. *)
Lemma second_call_reports_nothing :
  let running := final (start_signal "COM3" 115200 true (init Q)) in
  shown (pause_signal (final (pause_signal running))) = [] /\
  shown (start_signal "COM3" 115200 true running) = [] /\
  readers (final (start_signal "COM3" 115200 true running)) = 2.
Proof. repeat split. Qed.

(** C9, amended. Two calls of [pause_signal] in a row leave the scope
    as one call does, and neither reports anything. A second
    [start_signal] with the same selections leaves the acquisition
    flag, the handle and the (empty) buffer as the first one did; when
    the port opens again it reports nothing and starts one more reader,
    and when it does not open the whole scope is unchanged and the
    report is the failure to open. The code has no report for an
    invalid transition. *)
Theorem pause_and_start_twice :
  forall (V : Type) (com_port : string) (baud_rate : Z) (s : scope V),
    String.eqb com_port "No ports available" = false ->
    let once := final (start_signal com_port baud_rate true s) in
    (final (pause_signal (final (pause_signal s))) = final (pause_signal s) /\
     shown (pause_signal s) = [] /\
     shown (pause_signal (final (pause_signal s))) = []) /\
    (controller_state (final (start_signal com_port baud_rate true once)) =
       controller_state once /\
     shown (start_signal com_port baud_rate true once) = [] /\
     readers (final (start_signal com_port baud_rate true once)) =
       S (readers once)) /\
    (final (start_signal com_port baud_rate false once) = once /\
     shown (start_signal com_port baud_rate false once) = [PrintOpenFailed]).
Proof.
  intros V com_port baud_rate s Hport once.
  split; [|split].
  - split; [apply pause_signal_idempotent | split; reflexivity].
  - unfold once, start_signal. rewrite Hport. repeat split.
  - unfold once, start_signal. rewrite Hport. split; reflexivity.
Qed.

Lemma pause_and_start_twice_witness :
  let s := init Q in
  let once := final (start_signal "COM3" 115200 true s) in
  final (pause_signal (final (pause_signal s))) = final (pause_signal s) /\
  controller_state (final (start_signal "COM3" 115200 true once)) =
    controller_state once /\
  final (start_signal "COM3" 115200 false once) = once.
Proof.
  pose proof (@pause_and_start_twice Q "COM3" 115200 (init Q) eq_refl) as H.
  cbv zeta in H. destruct H as ((H1 & _) & (H2 & _) & (H3 & _)).
  cbv zeta. repeat split; assumption.
Defined.

(** ** Signal processing and the buffer: C4 *)

Section Frames.
Context {V : Type} `{Arith V}.
Implicit Types (s : scope V).

Lemma lfilter_from_length (b a xh yh x : list V) :
  length (lfilter_from b a xh yh x) = length x.
Proof.
  revert xh yh. induction x as [|xn x IH]; intros xh yh; simpl; auto.
Qed.

(** The filter returns one value per sample. *)
Lemma lfilter_length (b a x : list V) : length (lfilter b a x) = length x.
Proof. apply lfilter_from_length. Qed.

(** The first output of the filter is [b0 * x0 / a0]. *)
Lemma lfilter_first (b0 a0 : V) (b a : list V) (x0 : V) (x : list V) :
  hd (ratio 0 1) (lfilter (b0 :: b) (a0 :: a) (x0 :: x)) =
  div (sub (add (ratio 0 1) (mul b0 x0)) (ratio 0 1)) a0.
Proof. destruct b, a; reflexivity. Qed.

Lemma update_plot_keeps_buffer s :
  timestamps (final (update_plot s)) = timestamps s /\
  data (final (update_plot s)) = data s.
Proof.
  unfold update_plot.
  destruct (data s) as [|y ys] eqn:Hd; [simpl; rewrite ?Hd; auto|].
  destruct (timestamps s) as [|t ts] eqn:Ht; [simpl; rewrite ?Hd, ?Ht; auto|].
  destruct (moving_average _ 5); simpl; rewrite ?Hd, ?Ht; auto.
Qed.

Lemma update_plot_never_raises s : raised (update_plot s) = None.
Proof.
  unfold update_plot.
  destruct (data s) as [|y ys] eqn:Hd; [reflexivity|].
  destruct (timestamps s) as [|t ts] eqn:Ht; [reflexivity|].
  destruct (Nat.le_gt_cases 5 (length (firstn (Nat.min (length (y :: ys)) (length (t :: ts))) (y :: ys))))
    as [Hge|Hlt].
  - destruct (moving_average_full (firstn (Nat.min (length (y :: ys)) (length (t :: ts))) (y :: ys)) (w := 5))
      as (out & Hout & _); [lia|].
    rewrite Hout. reflexivity.
  - destruct (moving_average_short (firstn (Nat.min (length (y :: ys)) (length (t :: ts))) (y :: ys)) (w := 5))
      as (out & Hout & _).
    + split; [|exact Hlt]. rewrite length_firstn. simpl. lia.
    + rewrite Hout. reflexivity.
Qed.

Lemma compute_fft_keeps_buffer (fft_abs : list V -> list V) s :
  timestamps (final (compute_fft fft_abs s)) = timestamps s /\
  data (final (compute_fft fft_abs s)) = data s.
Proof.
  unfold compute_fft.
  destruct (0 <? length (data s)); [|auto].
  destruct (nth_error (timestamps s) 1); [|auto].
  destruct (nth_error (timestamps s) 0); [|auto].
  destruct (float_truediv _ _); simpl; auto.
Qed.

(** What [apply_filter] leaves in the buffer: the timestamps as they
    were, and the output of the filter in place of the values. *)
Lemma apply_filter_buffer (butter : nat -> V -> outcome (list V * list V)) s :
  let rate := estimated_rate (timestamps s) in
  timestamps (final (apply_filter butter s)) = timestamps s /\
  data (final (apply_filter butter s)) =
  match data s, low_pass_filter butter (data s) (chosen_cutoff rate) rate 4 with
  | _ :: _, Ok filtered_data => filtered_data
  | _, _ => data s
  end.
Proof.
  unfold apply_filter. cbv zeta.
  destruct (data s) as [|y ys] eqn:Hd; [simpl; rewrite ?Hd; auto|].
  destruct (low_pass_filter butter (y :: ys) _ _ 4) as [f|e]; simpl.
  - destruct (update_plot_keeps_buffer (set_data f s)) as [Ht Hdt].
    rewrite Ht, Hdt. auto.
  - rewrite ?Hd. auto.
Qed.

(** The filter keeps the number of stored values. *)
Lemma apply_filter_length (butter : nat -> V -> outcome (list V * list V)) s :
  length (data (final (apply_filter butter s))) = length (data s).
Proof.
  destruct (apply_filter_buffer butter s) as [_ Hd]. rewrite Hd.
  destruct (data s) as [|y ys]; [reflexivity|].
  unfold low_pass_filter.
  destruct (butter 4 _) as [[b a]|e]; simpl bind; cbv beta iota; [|reflexivity].
  apply lfilter_length.
Qed.

End Frames.

Section SecondWindowFrames.
Context {V : Type} `{Arith V}.
Implicit Types (w : EPTScope.window V).

Lemma perform_fft_keeps_buffer (rfft_abs : list V -> list V) w :
  let w' := fst (fst (EPTScope.perform_fft rfft_abs w)) in
  EPTScope.buffer_t w' = EPTScope.buffer_t w /\
  EPTScope.buffer_y w' = EPTScope.buffer_y w.
Proof.
  unfold EPTScope.perform_fft.
  destruct (length (EPTScope.buffer_y w) <? 2); [auto|].
  destruct (nth_error (EPTScope.buffer_t w) 1); [|auto].
  destruct (nth_error (EPTScope.buffer_t w) 0); [|auto].
  destruct (EPTScope.rfftfreq _ _); auto.
Qed.

Lemma perform_filter_keeps_buffer (band_filtfilt : list V -> list V) w :
  let w' := fst (EPTScope.perform_filter band_filtfilt w) in
  EPTScope.buffer_t w' = EPTScope.buffer_t w /\
  EPTScope.buffer_y w' = EPTScope.buffer_y w.
Proof.
  unfold EPTScope.perform_filter.
  destruct (length (EPTScope.buffer_y w) <? 10); auto.
Qed.

Lemma measure_stats_keeps_buffer w :
  fst (fst (EPTScope.measure_stats w)) = w.
Proof.
  unfold EPTScope.measure_stats. destruct (EPTScope.buffer_y w); reflexivity.
Qed.

(** With fewer than two samples the second window reports that there
    is not enough data, computes nothing and changes nothing. *)
Lemma perform_fft_insufficient (rfft_abs : list V -> list V) w :
  length (EPTScope.buffer_y w) < 2 ->
  EPTScope.perform_fft rfft_abs w = (w, [WarnNotEnoughData], None).
Proof.
  intros Hn. unfold EPTScope.perform_fft.
  destruct (Nat.ltb_spec (length (EPTScope.buffer_y w)) 2); [reflexivity|lia].
Qed.

End SecondWindowFrames.

(** The claim C4 fails at a buffer of one sample of value 1:
    [apply_filter] stores the filter's first output, [b0 * 1], in its
    place. *)
Lemma apply_filter_overwrites_data :
  let s := with_buffer [0%Q] [1%Q] in
  exists y,
    data (final (apply_filter butter_low s)) = [y] /\
    (y == 41660 # 100000000)%Q /\
    ~ (y == 1)%Q /\
    data s = [1%Q].
Proof.
  eexists. split; [vm_compute; reflexivity|].
  split; [reflexivity|]. split; [|reflexivity].
  intro Hc. discriminate Hc.
Qed.

(** C4, amended. Smoothing for the plot, the FFT, and in the second
    window the FFT, the band-pass display and the statistics, leave the
    stored timestamps and values exactly as they were. [apply_filter]
    leaves the timestamps as they were but stores the output of the
    low-pass filter in place of the values, whenever the buffer is not
    empty and the filter can be designed; the number of values stays
    the same. *)
Theorem processing_and_the_buffer :
  forall (V : Type) (A : Arith V)
         (butter : nat -> V -> outcome (list V * list V))
         (fft_abs rfft_abs band_filtfilt : list V -> list V)
         (s : scope V) (w : EPTScope.window V),
    (timestamps (final (update_plot s)) = timestamps s /\
     data (final (update_plot s)) = data s) /\
    (timestamps (final (compute_fft fft_abs s)) = timestamps s /\
     data (final (compute_fft fft_abs s)) = data s) /\
    (let rate := estimated_rate (timestamps s) in
     timestamps (final (apply_filter butter s)) = timestamps s /\
     data (final (apply_filter butter s)) =
       match data s,
             low_pass_filter butter (data s) (chosen_cutoff rate) rate 4 with
       | _ :: _, Ok filtered_data => filtered_data
       | _, _ => data s
       end /\
     length (data (final (apply_filter butter s))) = length (data s)) /\
    (let w1 := fst (fst (EPTScope.perform_fft rfft_abs w)) in
     let w2 := fst (EPTScope.perform_filter band_filtfilt w) in
     let w3 := fst (fst (EPTScope.measure_stats w)) in
     EPTScope.buffer_t w1 = EPTScope.buffer_t w /\
     EPTScope.buffer_y w1 = EPTScope.buffer_y w /\
     EPTScope.buffer_t w2 = EPTScope.buffer_t w /\
     EPTScope.buffer_y w2 = EPTScope.buffer_y w /\
     w3 = w).
Proof.
  intros V A butter fft_abs rfft_abs band_filtfilt s w.
  split; [apply update_plot_keeps_buffer|].
  split; [apply compute_fft_keeps_buffer|].
  split.
  - cbv zeta. destruct (apply_filter_buffer butter s) as [Ht Hd].
    split; [exact Ht|]. split; [exact Hd|]. apply apply_filter_length.
  - cbv zeta.
    destruct (perform_fft_keeps_buffer rfft_abs w) as [H1 H2].
    destruct (perform_filter_keeps_buffer band_filtfilt w) as [H3 H4].
    repeat split; auto. apply measure_stats_keeps_buffer.
Qed.

(** ** The spectrum: C6 and C7 *)

(** C6, at a buffer of one sample and at an empty buffer. With one
    sample [compute_fft] passes its guard [len(self.data) > 0] and
    raises IndexError at [self.timestamps[1]]; with none it returns
    without a word. In neither case is the lack of data reported. *)
Theorem compute_fft_too_few_samples :
  forall (V : Type) (A : Arith V) (fft_abs : list V -> list V) (t y : V)
         (s : scope V),
    compute_fft fft_abs (set_buffer [t] [y] s) =
      mkRun (set_buffer [t] [y] s) [] (Some IndexError) /\
    compute_fft fft_abs (set_buffer [] [] s) =
      mkRun (set_buffer [] [] s) [] None.
Proof. intros. split; reflexivity. Qed.

(** Two samples with the same timestamp: the division by [2.0 * T]
    raises ZeroDivisionError and nothing is plotted. *)
Lemma compute_fft_zero_interval (fft_abs : list Q -> list Q) (t y0 y1 : Q)
    (s : scope Q) :
  compute_fft fft_abs (set_buffer [t; t] [y0; y1] s) =
  mkRun (set_buffer [t; t] [y0; y1] s) [] (Some ZeroDivisionError).
Proof.
  unfold compute_fft, float_truediv. cbn [data timestamps set_buffer length
    Nat.ltb Nat.leb nth_error].
  assert (Hz : is_zero (mul (ratio 2 1) (sub t t)) = true).
  { cbn [is_zero mul sub ratio Q_Arith]. apply Qeq_bool_iff.
    change (inject_Z 2) with 2%Q. change (inject_Z 1) with 1%Q. field. }
  rewrite Hz. reflexivity.
Qed.

Section Spectrum.
Local Open Scope Q_scope.

Lemma linspace_length (a b : Q) (num : nat) :
  length (linspace a b num) = num.
Proof.
  destruct num as [|[|m]]; try reflexivity.
  unfold linspace. rewrite length_app, length_map, length_seq. simpl. lia.
Qed.

Lemma of_nat_Q (n : nat) : of_nat (V := Q) n == inject_Z (Z.of_nat n).
Proof. unfold of_nat. cbn [ratio Q_Arith]. change (inject_Z 1) with 1. field. Qed.

Lemma inject_nat_nonzero (n : nat) : (0 < n)%nat -> ~ inject_Z (Z.of_nat n) == 0.
Proof. intros Hn. unfold Qeq. simpl. lia. Qed.

(** The points of [linspace] are evenly spaced, [stop] included. *)
Lemma linspace_nth (a b : Q) (m k : nat) :
  (k <= S m)%nat ->
  nth k (linspace a b (S (S m))) 0 ==
  a + inject_Z (Z.of_nat k) * ((b - a) / inject_Z (Z.of_nat (S m))).
Proof.
  intros Hk.
  assert (Hm := inject_nat_nonzero (n := S m) ltac:(lia)).
  unfold linspace.
  destruct (Nat.eq_dec k (S m)) as [->|Hne].
  - rewrite app_nth2 by (rewrite length_map, length_seq; lia).
    rewrite length_map, length_seq, Nat.sub_diag. simpl nth.
    field. exact Hm.
  - rewrite app_nth1 by (rewrite length_map, length_seq; lia).
    rewrite (nth_indep _ 0 ((fun i => add a (mul (of_nat i) (div (sub b a) (of_nat (S m))))) 0%nat))
      by (rewrite length_map, length_seq; lia).
    rewrite (map_nth (fun i => add a (mul (of_nat i) (div (sub b a) (of_nat (S m)))))).
    rewrite seq_nth by lia. simpl Nat.add.
    cbn [add sub mul div Q_Arith]. rewrite !of_nat_Q. reflexivity.
Qed.

Lemma scaled_nth (c : Q) (l : list Q) (k : nat) :
  (k < length l)%nat -> nth k (map (Qmult c) l) 0 = c * nth k l 0.
Proof.
  intros Hk. rewrite (nth_indep _ 0 (c * 0)) by (rewrite length_map; exact Hk).
  apply (map_nth (Qmult c)).
Qed.

End Spectrum.

(** The claim C7 fails at four samples of value 1 taken one second
    apart. The transform is 4 in bin 0 and 0 elsewhere. [compute_fft]
    plots two bins: the first, the DC bin, at amplitude [2/4 * 4 = 2],
    doubled like any other, where the claim has [4/4 = 1]; and it puts
    the second at 1/2 Hz, the Nyquist frequency itself, so that the
    bins are 1/2 Hz apart where the claim has [1/(4*1) = 1/4]. *)
Lemma fft_doubles_dc_and_stretches_bins :
  let s := with_buffer [0; 1; 2; 3]%Q [1; 1; 1; 1]%Q in
  dft_abs_of_constant (data s) = [4; 0; 0; 0]%Q /\
  exists f0 f1 a0 a1,
    fft_plot (final (compute_fft dft_abs_of_constant s)) =
      Some ([f0; f1], [a0; a1]) /\
    (a0 == 2)%Q /\ ~ (a0 == (1 # 4) * 4)%Q /\
    (f1 - f0 == 1 # 2)%Q /\ ~ (f1 - f0 == 1 / (4 * 1))%Q.
Proof.
  split; [reflexivity|].
  do 4 eexists. split; [vm_compute; reflexivity|].
  repeat split; try reflexivity; intro Hc; discriminate Hc.
Qed.

(** C7, amended. With at least two samples, [dt] the difference of the
    first two timestamps and [dt] not zero, [compute_fft] plots the
    first [n/2] magnitudes of the transform, the bins of the
    frequencies from 0 up to but not including Nyquist. Each of them,
    the DC bin included, is multiplied by [2/n]. They are drawn at
    [n/2] evenly spaced points that start at 0 and, from four samples
    on, end at the Nyquist frequency [1/(2*dt)]: the spacing is
    [1/(2*dt)] divided by [n/2 - 1]. *)
Theorem compute_fft_spectrum :
  forall (fft_abs : list Q -> list Q) (s : scope Q) (t0 t1 : Q) (rest : list Q),
    timestamps s = t0 :: t1 :: rest ->
    2 <= length (data s) ->
    ~ (t1 - t0 == 0)%Q ->
    length (fft_abs (data s)) = length (data s) ->
    let n := length (data s) in
    let nyquist := (1 / (2 * (t1 - t0)))%Q in
    exists xf amplitude,
      compute_fft fft_abs s = mkRun (set_fft_plot (Some (xf, amplitude)) s) [] None /\
      length amplitude = n / 2 /\
      length xf = n / 2 /\
      (forall k, k < n / 2 ->
         (nth k amplitude 0 ==
          (2 / inject_Z (Z.of_nat n)) * nth k (fft_abs (data s)) 0)%Q) /\
      (nth 0 xf 0 == 0)%Q /\
      (forall k, 4 <= n -> k < n / 2 ->
         (nth k xf 0 ==
          inject_Z (Z.of_nat k) * (nyquist / inject_Z (Z.of_nat (n / 2 - 1))))%Q).
Proof.
  intros fft_abs s t0 t1 rest Hts Hn Hdt Hlen n nyquist.
  assert (Hhalf : 1 <= n / 2)
    by (apply (Nat.div_le_lower_bound n 2 1); unfold n; lia).
  assert (Hhalf_le : n / 2 <= n) by (apply Nat.Div0.div_le_upper_bound; lia).
  unfold compute_fft. fold n. rewrite Hts. cbn [nth_error].
  destruct (Nat.ltb_spec 0 n) as [_|Hc]; [|unfold n in Hc; lia].
  unfold float_truediv.
  assert (Hz : is_zero (mul (ratio 2 1) (sub t1 t0)) = false).
  { cbn [is_zero mul sub ratio Q_Arith].
    destruct (Qeq_bool _ 0) eqn:Hq; [|reflexivity].
    apply Qeq_bool_eq in Hq. exfalso. apply Hdt.
    change (inject_Z 2) with 2%Q in Hq. change (inject_Z 1) with 1%Q in Hq.
    assert (Hq' : (t1 - t0 == (2 / 1 * (t1 - t0)) * (1 # 2))%Q) by field.
    rewrite Hq', Hq. reflexivity. }
  rewrite Hz.
  do 2 eexists. split; [reflexivity|].
  assert (Hny : (div (ratio 1 1) (mul (ratio 2 1) (sub t1 t0)) == nyquist)%Q).
  { cbn [div mul sub ratio Q_Arith]. unfold nyquist.
    change (inject_Z 2) with 2%Q. change (inject_Z 1) with 1%Q.
    field. exact Hdt. }
  split; [|split; [|split; [|split]]].
  - rewrite length_map, length_firstn, Hlen. fold n. lia.
  - apply linspace_length.
  - intros k Hk.
    rewrite scaled_nth by (rewrite length_firstn, Hlen; fold n; lia).
    rewrite nth_firstn.
    destruct (Nat.ltb_spec k (n / 2)) as [_|Hc]; [|lia].
    cbn [div ratio Q_Arith]. rewrite of_nat_Q.
    change (inject_Z 2) with 2%Q. change (inject_Z 1) with 1%Q.
    assert (Hnz := inject_nat_nonzero (n := n) ltac:(lia)).
    field. exact Hnz.
  - destruct (n / 2) as [|[|m]] eqn:Hm; [lia| |].
    + reflexivity.
    + rewrite linspace_nth by lia. cbn [ratio Q_Arith].
      change (inject_Z 0) with 0%Q. change (inject_Z 1) with 1%Q.
      change (inject_Z (Z.of_nat 0)) with 0%Q.
      assert (Hnz := inject_nat_nonzero (n := S m) ltac:(lia)).
      field. exact Hnz.
  - intros k Hn4 Hk.
    assert (Hh2 : 2 <= n / 2)
      by (apply (Nat.div_le_lower_bound n 2 2); lia).
    destruct (n / 2) as [|[|m]] eqn:Hm; [lia|lia|].
    rewrite linspace_nth by lia.
    replace (S (S m) - 1)%nat with (S m) by lia.
    rewrite Hny. cbn [ratio Q_Arith].
    change (inject_Z 0) with 0%Q. change (inject_Z 1) with 1%Q.
    assert (Hnz := inject_nat_nonzero (n := S m) ltac:(lia)).
    field. exact Hnz.
Qed.

Lemma compute_fft_spectrum_witness :
  let s := with_buffer [0; 1; 2; 3]%Q [1; 1; 1; 1]%Q in
  exists xf amplitude,
    compute_fft dft_abs_of_constant s =
      mkRun (set_fft_plot (Some (xf, amplitude)) s) [] None /\
    length amplitude = 2 /\ length xf = 2.
Proof.
  cbv zeta.
  destruct (@compute_fft_spectrum dft_abs_of_constant
              (with_buffer [0; 1; 2; 3]%Q [1; 1; 1; 1]%Q) 0%Q 1%Q [2; 3]%Q)
    as (xf & amp & Hrun & Ha & Hx & _).
  - reflexivity.
  - simpl. lia.
  - intro Hc. discriminate Hc.
  - reflexivity.
  - exists xf, amp. repeat split; assumption.
Defined.

(** ** Alignment of the two lists: C10 *)

Section Alignment.
Context {V : Type}.
Variable float_of_text : text -> outcome V.
Implicit Types (s : scope V).

Lemma parse_rows_aligned lines :
  forall ts ds ts' ds',
    length ts = length ds ->
    parse_rows float_of_text lines ts ds = Ok (ts', ds') ->
    length ts' = length ds'.
Proof.
  induction lines as [|line lines IH]; intros ts ds ts' ds' Hlen Hp; simpl in Hp.
  - injection Hp as <- <-. exact Hlen.
  - destruct (split_ws (strip line)) as [|p0 [|p1 [|p2 ps]]];
      try (apply (IH _ _ _ _ Hlen Hp)).
    destruct (float_of_text p0) as [t|e]; [|discriminate].
    destruct (float_of_text p1) as [v|e]; [|discriminate].
    simpl in Hp. apply (IH (ts ++ [t]) (ds ++ [v])); [|exact Hp].
    rewrite !length_app. simpl. lia.
Qed.

Lemma clear_screen_aligned yes s :
  aligned s -> aligned (final (clear_screen yes s)).
Proof. destruct yes; simpl; auto. intros _. reflexivity. Qed.

Lemma open_signal_aligned file_path content s :
  aligned s -> aligned (final (open_signal float_of_text file_path content s)).
Proof.
  intros Hs. unfold open_signal.
  destruct file_path as [|c p]; [exact Hs|].
  destruct (endswith (c :: p) (txt ".txt")); [|exact Hs].
  destruct content as [text|]; [|exact Hs].
  destruct (parse_rows float_of_text (readlines text) [] []) as [[ts ds]|e] eqn:Hp;
    [|exact Hs].
  unfold aligned. simpl. apply (parse_rows_aligned _ _ _ eq_refl Hp).
Qed.

Lemma apply_op_aligned s op : aligned s -> aligned (apply_op float_of_text s op).
Proof.
  destruct op; simpl.
  - apply append_sample_aligned.
  - apply clear_screen_aligned.
  - apply open_signal_aligned.
Qed.

End Alignment.

(** C10. Each operation that writes the buffer, an append with its
    eviction, a clear, an import, turns a buffer with as many
    timestamps as values into one, so after any sequence of them every
    value has its timestamp. *)
Theorem buffer_stays_aligned :
  forall (V : Type) (float_of_text : text -> outcome V)
         (ops : list (buffer_op V)) (s : scope V),
    aligned s ->
    aligned (fold_left (apply_op float_of_text) ops s).
Proof.
  intros V float_of_text ops. induction ops as [|op ops IH]; intros s Hs.
  - exact Hs.
  - simpl. apply IH. apply apply_op_aligned. exact Hs.
Qed.

Lemma buffer_stays_aligned_witness :
  let ops := [OpAppend 0 7; OpAppend 1 9; OpClear true;
              OpImport (txt "run.txt") (Some (txt "0 5
1 6
oops
")); OpAppend 2 4] in
  let s := fold_left (apply_op nat_of_text) ops (init nat) in
  aligned (init nat) /\ aligned s /\
  timestamps s = [0; 1; 2] /\ data s = [5; 6; 4].
Proof.
  cbv zeta. split; [reflexivity|]. split.
  - apply buffer_stays_aligned. reflexivity.
  - split; vm_compute; reflexivity.
Defined.

(** In particular every buffer reached from the initial scope by these
    operations is aligned. *)
Corollary reachable_buffer_aligned (V : Type) (float_of_text : text -> outcome V)
    (ops : list (buffer_op V)) :
  aligned (fold_left (apply_op float_of_text) ops (init V)).
Proof.
  revert ops. generalize (init V), (eq_refl : aligned (init V)).
  intros s Hs ops. revert s Hs.
  induction ops as [|op ops IH]; intros s Hs; simpl; auto.
  apply IH. apply apply_op_aligned. exact Hs.
Qed.

(** ** Export then import: C8 *)

Section LineLemmas.
Implicit Types (l cur body rest w : text) (c : ascii).

Lemma LF_is_space : is_space LF = true.
Proof. reflexivity. Qed.

Lemma SP_is_space : is_space SP = true.
Proof. reflexivity. Qed.

(** A character that is not whitespace ends no line. *)
Lemma not_space_not_newline c :
  is_space c = false -> Ascii.eqb c LF = false /\ Ascii.eqb c CR = false.
Proof.
  intros Hc. split.
  - destruct (Ascii.eqb_spec c LF) as [->|]; [discriminate Hc|reflexivity].
  - destruct (Ascii.eqb_spec c CR) as [->|]; [discriminate Hc|reflexivity].
Qed.

Lemma SP_not_newline : Ascii.eqb SP LF = false /\ Ascii.eqb SP CR = false.
Proof. split; reflexivity. Qed.

Lemma no_space_no_newline l : no_space l -> no_newline l.
Proof.
  unfold no_space, no_newline. rewrite !forallb_forall. intros H c Hc.
  specialize (H c Hc). apply negb_true_iff in H.
  destruct (not_space_not_newline c H) as [H1 H2]. rewrite H1, H2. reflexivity.
Qed.

Lemma no_newline_app l1 l2 : no_newline l1 -> no_newline l2 -> no_newline (l1 ++ l2).
Proof. unfold no_newline. rewrite forallb_app. intros -> ->. reflexivity. Qed.

(** [readlines] cuts after the LF that ends a line without line ends. *)
Lemma readlines_from_line cur body rest :
  no_newline body ->
  readlines_from cur (body ++ LF :: rest) =
  (cur ++ body ++ [LF]) :: readlines_from [] rest.
Proof.
  revert cur. induction body as [|c body IH]; intros cur Hb.
  - reflexivity.
  - unfold no_newline in Hb. simpl in Hb.
    apply andb_true_iff in Hb. destruct Hb as [Hc Hb].
    apply andb_true_iff in Hc. destruct Hc as [H1 H2].
    apply negb_true_iff in H1, H2.
    simpl. rewrite H1, H2, (IH (cur ++ [c]) Hb), <- app_assoc. reflexivity.
Qed.

Lemma readlines_rows (bodies : list text) :
  Forall no_newline bodies ->
  readlines (concat (map (fun b => b ++ [LF]) bodies)) =
  map (fun b => b ++ [LF]) bodies.
Proof.
  unfold readlines. induction 1 as [|b bodies Hb _ IH]; [reflexivity|].
  simpl. rewrite <- app_assoc. simpl.
  rewrite readlines_from_line by exact Hb. rewrite IH. reflexivity.
Qed.

(** [split] reads a word without whitespace in one piece. *)
Lemma split_from_word cur w rest :
  no_space w -> split_from cur (w ++ rest) = split_from (cur ++ w) rest.
Proof.
  revert cur. induction w as [|c w IH]; intros cur Hw.
  - rewrite app_nil_r. reflexivity.
  - unfold no_space in Hw. simpl in Hw.
    apply andb_true_iff in Hw. destruct Hw as [Hc Hw].
    apply negb_true_iff in Hc.
    simpl. rewrite Hc, (IH (cur ++ [c]) Hw), <- app_assoc. reflexivity.
Qed.

Lemma split_two_words w1 w2 :
  w1 <> [] -> w2 <> [] -> no_space w1 -> no_space w2 ->
  split_ws (w1 ++ [SP] ++ w2) = [w1; w2].
Proof.
  intros H1 H2 Hs1 Hs2. unfold split_ws.
  rewrite split_from_word by exact Hs1. simpl app.
  destruct w1 as [|c w1]; [contradiction|].
  cbn [split_from]. rewrite SP_is_space.
  rewrite <- (app_nil_r w2), split_from_word by exact Hs2.
  simpl. rewrite app_nil_r. destruct w2; [contradiction|reflexivity].
Qed.

(** A row of two words is stripped of its line end only. *)
Lemma strip_two_words w1 w2 :
  w1 <> [] -> w2 <> [] -> no_space w1 -> no_space w2 ->
  strip ((w1 ++ [SP] ++ w2) ++ [LF]) = w1 ++ [SP] ++ w2.
Proof.
  intros H1 H2 Hs1 Hs2.
  destruct w1 as [|c w1]; [contradiction|].
  destruct (exists_last H2) as (w2' & d & ->).
  unfold no_space in Hs1, Hs2. simpl in Hs1. rewrite forallb_app in Hs2.
  apply andb_true_iff in Hs1. destruct Hs1 as [Hc _].
  apply andb_true_iff in Hs2. destruct Hs2 as [_ Hd].
  simpl in Hd. rewrite andb_true_r in Hd.
  apply negb_true_iff in Hc, Hd.
  replace ((c :: w1) ++ [SP] ++ w2' ++ [d])
    with (c :: (w1 ++ [SP] ++ w2') ++ [d])
    by (simpl; rewrite <- !app_assoc; reflexivity).
  apply strip_row; auto.
Qed.

End LineLemmas.

Section RoundTrip.
Context {V : Type}.
Variable float_repr : V -> text.
Variable float_of_text : text -> outcome V.
Abbreviation good := (survives_text float_repr float_of_text).

Lemma export_row_body p : export_row float_repr p = row_body float_repr p ++ [LF].
Proof. unfold export_row, row_body. rewrite <- !app_assoc. reflexivity. Qed.

Lemma row_body_no_newline p :
  good (fst p) -> good (snd p) -> no_newline (row_body float_repr p).
Proof.
  intros (_ & H1 & _) (_ & H2 & _). unfold row_body.
  apply no_newline_app; [apply no_space_no_newline; exact H1|].
  apply no_newline_app; [reflexivity|apply no_space_no_newline; exact H2].
Qed.

(** The import loop reads back the pairs of the rows it is given. *)
Lemma parse_rows_export (pairs : list (V * V)) :
  Forall (fun p => good (fst p) /\ good (snd p)) pairs ->
  forall ts ds,
    parse_rows float_of_text (map (export_row float_repr) pairs) ts ds =
    Ok (ts ++ map fst pairs, ds ++ map snd pairs).
Proof.
  induction 1 as [|p pairs [Ht Hv] _ IH]; intros ts ds.
  - simpl. rewrite !app_nil_r. reflexivity.
  - destruct Ht as (Ht1 & Ht2 & Ht3). destruct Hv as (Hv1 & Hv2 & Hv3).
    cbn [map parse_rows]. rewrite export_row_body. unfold row_body.
    rewrite strip_two_words, split_two_words by assumption.
    rewrite Ht3, Hv3. cbn [bind]. rewrite IH, <- !app_assoc. reflexivity.
Qed.

Lemma export_data_content (file_path : text) (s : scope V) :
  endswith file_path (txt ".txt") = true ->
  export_data float_repr file_path s =
  (mkRun s [PrintExported] None,
   Some (concat (map (export_row float_repr) (combine (timestamps s) (data s))))).
Proof.
  intros Hp. unfold export_data.
  destruct file_path as [|c p]; [discriminate Hp|]. rewrite Hp. reflexivity.
Qed.

Lemma Forall_combine (P : V -> Prop) (ts ds : list V) :
  Forall P ts -> Forall P ds ->
  Forall (fun p => P (fst p) /\ P (snd p)) (combine ts ds).
Proof.
  intros Ht. revert ds. induction Ht as [|t ts Hp _ IH]; intros ds Hd.
  - constructor.
  - destruct Hd as [|d ds Hq Hd]; simpl; constructor; auto.
Qed.

(** The file written for a buffer reads back as the buffer's pairs. *)
Lemma import_of_export (file_path : text) (s s' : scope V) :
  endswith file_path (txt ".txt") = true ->
  Forall good (timestamps s) -> Forall good (data s) ->
  let pairs := combine (timestamps s) (data s) in
  let written := concat (map (export_row float_repr) pairs) in
  open_signal float_of_text file_path (Some written) s' =
  mkRun (set_curve (map fst pairs, map snd pairs)
           (set_buffer (map fst pairs) (map snd pairs) s'))
        [PrintLoaded] None.
Proof.
  intros Hp Ht Hd pairs written. unfold open_signal.
  destruct file_path as [|c p]; [discriminate Hp|]. rewrite Hp.
  assert (Hgood : Forall (fun p => good (fst p) /\ good (snd p)) pairs)
    by (apply Forall_combine; assumption).
  assert (Hlines : readlines written = map (export_row float_repr) pairs).
  { unfold written.
    rewrite (map_ext (export_row float_repr) (fun p => row_body float_repr p ++ [LF]))
      by (intros; apply export_row_body).
    rewrite <- (map_map (row_body float_repr) (fun b => b ++ [LF])).
    apply readlines_rows. apply Forall_map.
    eapply Forall_impl; [|exact Hgood].
    intros q [H1 H2]. apply row_body_no_newline; assumption. }
  rewrite Hlines, (parse_rows_export Hgood). reflexivity.
Qed.

End RoundTrip.

(** C8. Exporting the buffer to a [.txt] file and importing that file
    gives back the sequence of (timestamp, value) pairs the export wrote,
    the same number of them and each pair identical, hence within any
    tolerance, provided every stored number survives the text: its
    [f"{x}"] is a non-empty word without whitespace that [float] reads
    back as the same number. *)
Theorem export_import_round_trip :
  forall (V : Type) (float_repr : V -> text)
         (float_of_text : text -> outcome V)
         (file_path : text) (s s' : scope V),
    endswith file_path (txt ".txt") = true ->
    Forall (survives_text float_repr float_of_text) (timestamps s) ->
    Forall (survives_text float_repr float_of_text) (data s) ->
    exists written,
      snd (export_data float_repr file_path s) = Some written /\
      let loaded := final (open_signal float_of_text file_path (Some written) s') in
      combine (timestamps loaded) (data loaded) =
        combine (timestamps s) (data s) /\
      length (timestamps loaded) = Nat.min (length (timestamps s)) (length (data s)) /\
      length (data loaded) = Nat.min (length (timestamps s)) (length (data s)).
Proof.
  intros V float_repr float_of_text file_path s s' Hp Ht Hd.
  exists (concat (map (export_row float_repr) (combine (timestamps s) (data s)))).
  split.
  - rewrite (@export_data_content V float_repr file_path s Hp). reflexivity.
  - cbv zeta.
    pose proof (@import_of_export V float_repr float_of_text file_path s s' Hp Ht Hd)
      as Hload.
    cbv zeta in Hload.
    match goal with
    | |- context [final ?r] => replace r with
        (mkRun (set_curve (map fst (combine (timestamps s) (data s)),
                           map snd (combine (timestamps s) (data s)))
                  (set_buffer (map fst (combine (timestamps s) (data s)))
                              (map snd (combine (timestamps s) (data s))) s'))
               [PrintLoaded] None)
        by (symmetry; exact Hload)
    end.
    simpl.
    rewrite !length_map, length_combine.
    split; [|split; reflexivity].
    generalize (combine (timestamps s) (data s)). intros l.
    induction l as [|[a b] l IH]; simpl; [reflexivity|]. rewrite IH. reflexivity.
Qed.

(** When the buffer is aligned the import restores both lists. *)
Lemma export_import_restores (V : Type) (float_repr : V -> text)
    (float_of_text : text -> outcome V) (file_path : text) (s s' : scope V) :
  endswith file_path (txt ".txt") = true ->
  Forall (survives_text float_repr float_of_text) (timestamps s) ->
  Forall (survives_text float_repr float_of_text) (data s) ->
  aligned s ->
  let written := concat (map (export_row float_repr)
                             (combine (timestamps s) (data s))) in
  let loaded := final (open_signal float_of_text file_path (Some written) s') in
  timestamps loaded = timestamps s /\ data loaded = data s.
Proof.
  intros Hp Ht Hd Ha written loaded. unfold loaded, written.
  pose proof (@import_of_export V float_repr float_of_text file_path s s' Hp Ht Hd)
    as Hload.
  cbv zeta in Hload.
  match goal with
  | |- context [final ?r] => replace r with
      (mkRun (set_curve (map fst (combine (timestamps s) (data s)),
                         map snd (combine (timestamps s) (data s)))
                (set_buffer (map fst (combine (timestamps s) (data s)))
                            (map snd (combine (timestamps s) (data s))) s'))
             [PrintLoaded] None)
      by (symmetry; exact Hload)
  end.
  simpl.
  unfold aligned in Ha. clear -Ha. revert Ha.
  generalize (data s). induction (timestamps s) as [|t ts IH];
    intros [|d ds] Ha; simpl in *; try discriminate; auto.
  injection Ha as Ha. destruct (IH ds Ha) as [-> ->]. auto.
Qed.

Lemma export_import_round_trip_witness :
  let s := with_buffer [0; 1; 25] [410; 0; 4095] in
  exists written,
    snd (export_data nat_repr (txt "run.txt") s) = Some written /\
    written = txt "0 410
1 0
25 4095
" /\
    let loaded := final (open_signal nat_of_text (txt "run.txt") (Some written) (init nat)) in
    combine (timestamps loaded) (data loaded) = [(0, 410); (1, 0); (25, 4095)].
Proof.
  cbv zeta.
  destruct (@export_import_round_trip nat nat_repr nat_of_text (txt "run.txt")
              (with_buffer [0; 1; 25] [410; 0; 4095]) (init nat))
    as (written & Hw & Hc & _).
  - reflexivity.
  - repeat constructor; try discriminate.
  - repeat constructor; try discriminate.
  - exists written. split; [exact Hw|]. split; [|exact Hc].
    vm_compute in Hw. injection Hw as <-. reflexivity.
Defined.

(* ===================================================================== *)
(** * Further properties of the code *)
(* ===================================================================== *)

(** ** The reader and the buffer *)

Section ReaderInvariant.
Variable limit : nat.
Implicit Types (s : scope float).

Lemma append_sample_bounded (V : Type) (cap : nat) (t v : V) (s : scope V) :
  length (data s) <= cap -> length (data (append_sample cap t v s)) <= cap.
Proof.
  intros Hb. rewrite append_sample_data.
  destruct (Nat.ltb_spec cap (length (data s ++ [v]))) as [Hlt|Hge]; [|exact Hge].
  rewrite length_app in Hlt. simpl in Hlt.
  destruct (data s); simpl in *; rewrite ?length_app; simpl; lia.
Qed.

Lemma close_port_buffer (V : Type) (s : scope V) :
  data (close_port s) = data s /\ timestamps (close_port s) = timestamps s.
Proof. unfold close_port. destruct (ser s) as [h|]; [destruct (is_open h)|]; auto. Qed.

(** One frame either leaves the two lists as they were or appends one
    sample taken at [elapsed]. *)
Lemma read_frame_buffer input elapsed s :
  (data (final (read_frame limit input elapsed s)) = data s /\
   timestamps (final (read_frame limit input elapsed s)) = timestamps s) \/
  exists v, final (read_frame limit input elapsed s) =
            append_sample max_data_points elapsed v s.
Proof.
  assert (Hstop :
    data (close_port (set_timer false (set_running false s))) = data s /\
    timestamps (close_port (set_timer false (set_running false s))) = timestamps s).
  { destruct (close_port_buffer (set_timer false (set_running false s))) as [H1 H2].
    rewrite H1, H2. auto. }
  unfold read_frame, read_frame_body.
  destruct input as [line| |]; cbn [receive bind].
  - destruct (map_outcome (python_int limit) (findall_digits (strip line)))
      as [[|n ns]|[]]; cbn [bind]; auto.
    destruct (adc_to_voltage _) as [v|[]]; cbn [bind final]; eauto.
  - auto.
  - auto.
Qed.

Lemma read_frame_keeps_bound input elapsed s :
  aligned s -> length (data s) <= max_data_points ->
  aligned (final (read_frame limit input elapsed s)) /\
  length (data (final (read_frame limit input elapsed s))) <= max_data_points.
Proof.
  intros Ha Hb.
  destruct (read_frame_buffer input elapsed s) as [[Hd Ht]|[v Hv]].
  - unfold aligned. rewrite Hd, Ht. auto.
  - rewrite Hv. split; [apply append_sample_aligned | apply append_sample_bounded];
      assumption.
Qed.

End ReaderInvariant.

(** X1. Whatever the port delivers, lines, bytes that do not decode or
    I/O errors, the reader thread leaves a buffer that was aligned and
    within the capacity aligned and within the capacity of 1000. *)
Theorem reader_keeps_buffer_bounded :
  forall (limit : nat) (inputs : list (rx * float)) (s : scope float),
    aligned s -> length (data s) <= 1000 ->
    aligned (final (read_data limit inputs s)) /\
    length (data (final (read_data limit inputs s))) <= 1000.
Proof.
  intros limit inputs. change 1000 with max_data_points.
  induction inputs as [|[input elapsed] rest IH]; intros s Ha Hb.
  - simpl. auto.
  - cbn [read_data].
    destruct (is_running s); [|simpl; auto].
    destruct (port_is_open s); [|simpl; auto].
    destruct (read_frame_keeps_bound limit input elapsed Ha Hb) as [Ha' Hb'].
    destruct (raised (read_frame limit input elapsed s)); [auto|].
    cbn [final]. apply IH; assumption.
Qed.

Lemma reader_keeps_buffer_bounded_witness :
  let s := final (start_signal "COM3" 115200 true (init float)) in
  let inputs := [(RxLine (txt "adc 17 4095"), S754_zero false);
                 (RxUndecodable, S754_zero false);
                 (RxLine (txt "noise"), S754_zero false);
                 (RxLine (txt "0"), S754_zero false)] in
  data (final (read_data 4300 inputs s)) = [volts_max; volts_min] /\
  aligned (final (read_data 4300 inputs s)) /\
  length (data (final (read_data 4300 inputs s))) <= 1000.
Proof.
  cbv zeta. split; [vm_compute; reflexivity|].
  apply reader_keeps_buffer_bounded; [reflexivity | simpl; lia].
Defined.

(** X2. An append never shortens the buffer: after a run of appends
    the length is the larger of the length before and of the capacity
    or the total, whichever is less. A buffer made longer than the
    capacity, as an import can make it, keeps its length under the
    reader. *)
Theorem append_all_length :
  forall (V : Type) (cap : nat) (xs : list (V * V)) (s : scope V),
    length (data (append_all cap xs s)) =
    Nat.max (length (data s)) (Nat.min cap (length (data s) + length xs)).
Proof.
  intros V cap xs. induction xs as [|[t v] xs IH]; intros s.
  - simpl. lia.
  - change (append_all cap ((t, v) :: xs) s)
      with (append_all cap xs (append_sample cap t v s)).
    rewrite IH, append_sample_data.
    assert (Hs : length (data s ++ [v]) = S (length (data s)))
      by (rewrite length_app; simpl; lia).
    assert (Ht : length (tl (data s ++ [v])) = length (data s))
      by (destruct (data s); simpl; rewrite ?length_app; simpl; lia).
    destruct (Nat.ltb_spec cap (length (data s ++ [v]))) as [Hlt|Hge];
      rewrite ?Ht, ?Hs; simpl length; lia.
Qed.

(** ** The conversion to volts *)

Lemma strictly_increasing_nth (l : list float) :
  strictly_increasing l = true ->
  forall i j, i < j -> j < length l ->
    SFltb (nth i l S754_nan) (nth j l S754_nan) = true.
Proof.
  induction l as [|x l IH]; intros Hl i j Hij Hj; simpl in Hj; [lia|].
  simpl in Hl. apply andb_true_iff in Hl. destruct Hl as [Hx Hl].
  destruct j as [|j]; [lia|]. destruct i as [|i].
  - simpl. rewrite forallb_forall in Hx. apply Hx. apply nth_In. lia.
  - simpl. apply IH; auto; lia.
Qed.

Lemma voltage_table_nth (n : nat) :
  n < 4096 ->
  nth n (map (fun k => voltage_of_code (Z.of_nat k)) (seq 0 4096)) S754_nan =
  voltage_of_code (Z.of_nat n).
Proof.
  intros Hn.
  rewrite (nth_indep _ S754_nan ((fun k => voltage_of_code (Z.of_nat k)) 0))
    by (rewrite length_map, length_seq; exact Hn).
  rewrite (map_nth (fun k => voltage_of_code (Z.of_nat k))).
  rewrite seq_nth by exact Hn. reflexivity.
Qed.

Lemma voltage_table_increasing :
  strictly_increasing
    (map (fun k => voltage_of_code (Z.of_nat k)) (seq 0 4096)) = true.
Proof. vm_compute. reflexivity. Qed.

Lemma voltage_table_in_range :
  forallb (fun v => SFleb volts_min v && SFleb v volts_max)
    (map (fun k => voltage_of_code (Z.of_nat k)) (seq 0 4096)) = true.
Proof. vm_compute. reflexivity. Qed.

(** X3. Every code of the 12-bit converter, 0 to 4095, converts
    without an exception to a voltage between -0.6 and the float just
    below 2.7, and a higher code always reads as a strictly higher
    voltage. *)
Theorem adc_voltage_range_and_order :
  forall a b : Z,
    (0 <= a <= 4095)%Z -> (0 <= b <= 4095)%Z ->
    adc_to_voltage a = Ok (voltage_of_code a) /\
    SFleb volts_min (voltage_of_code a) = true /\
    SFleb (voltage_of_code a) volts_max = true /\
    ((a < b)%Z -> SFltb (voltage_of_code a) (voltage_of_code b) = true).
Proof.
  intros a b Ha Hb.
  assert (Hna : Z.to_nat a < 4096) by lia.
  assert (Hnb : Z.to_nat b < 4096) by lia.
  split; [|split; [|split]].
  - unfold voltage_of_code.
    destruct (adc_in_range_converts Ha) as [v Hv]. rewrite Hv. reflexivity.
  - pose proof voltage_table_in_range as H. rewrite forallb_forall in H.
    specialize (H (voltage_of_code a)).
    assert (Hin : In (voltage_of_code a)
                    (map (fun k => voltage_of_code (Z.of_nat k)) (seq 0 4096))).
    { rewrite <- (Z2Nat.id a) at 1 by lia.
      apply (in_map (fun k => voltage_of_code (Z.of_nat k))). apply in_seq. lia. }
    apply H in Hin. apply andb_true_iff in Hin. apply Hin.
  - pose proof voltage_table_in_range as H. rewrite forallb_forall in H.
    specialize (H (voltage_of_code a)).
    assert (Hin : In (voltage_of_code a)
                    (map (fun k => voltage_of_code (Z.of_nat k)) (seq 0 4096))).
    { rewrite <- (Z2Nat.id a) at 1 by lia.
      apply (in_map (fun k => voltage_of_code (Z.of_nat k))). apply in_seq. lia. }
    apply H in Hin. apply andb_true_iff in Hin. apply Hin.
  - intros Hab.
    pose proof (strictly_increasing_nth _ voltage_table_increasing
                  (i := Z.to_nat a) (j := Z.to_nat b)) as H.
    rewrite !voltage_table_nth, !Z2Nat.id in H by lia.
    apply H; [lia|]. rewrite length_map, length_seq. exact Hnb.
Qed.

Lemma adc_voltage_range_and_order_witness :
  adc_to_voltage 0 = Ok volts_min /\
  adc_to_voltage 4095 = Ok volts_max /\
  SFltb (voltage_of_code 2047) (voltage_of_code 2048) = true.
Proof.
  destruct (adc_voltage_range_and_order (a := 2047) (b := 2048)) as (_ & _ & _ & H);
    [lia | lia |].
  split; [vm_compute; reflexivity|]. split; [vm_compute; reflexivity|].
  apply H. lia.
Defined.

(** ** The reader's frames *)

(** X4. An I/O error on the port ends the reader: acquisition is
    flagged off, the redraw timer is stopped, the port is closed, one
    message is printed, the buffer keeps what it had, and the frames
    that follow are never read. *)
Theorem serial_error_stops_reader :
  forall (limit : nat) (elapsed : float) (rest : list (rx * float))
         (s : scope float),
    is_running s = true -> port_is_open s = true ->
    let r := read_data limit ((RxSerialError, elapsed) :: rest) s in
    is_running (final r) = false /\
    timer_active (final r) = false /\
    port_is_open (final r) = false /\
    data (final r) = data s /\ timestamps (final r) = timestamps s /\
    shown r = [PrintSerialError] /\ raised r = None.
Proof.
  intros limit elapsed rest s Hrun Hopen. cbn [read_data].
  rewrite Hrun, Hopen.
  unfold read_frame, read_frame_body. cbn [receive bind raised final shown].
  unfold port_is_open in Hopen.
  destruct (ser s) as [h|] eqn:Hs; [|discriminate].
  assert (Hc : close_port (set_timer false (set_running false s)) =
               set_ser (Some (mkSerial (port h) (baudrate h) false))
                       (set_timer false (set_running false s))).
  { unfold close_port. cbn [ser set_timer set_running]. rewrite Hs, Hopen.
    reflexivity. }
  rewrite Hc. destruct rest as [|[i e] rest]; cbn; repeat split.
Qed.

Lemma serial_error_stops_reader_witness :
  let s := final (start_signal "COM3" 115200 true (init float)) in
  let r := read_data 4300 [(RxSerialError, S754_zero false);
                           (RxLine (txt "4095"), S754_zero false)] s in
  is_running (final r) = false /\ data (final r) = [].
Proof.
  cbv zeta.
  destruct (@serial_error_stops_reader 4300 (S754_zero false)
              [(RxLine (txt "4095"), S754_zero false)]
              (final (start_signal "COM3" 115200 true (init float)))
              eq_refl eq_refl) as (H1 & _ & _ & H4 & _).
  split; [exact H1 | exact H4].
Defined.

Lemma map_python_int_rejects (limit : nat) (runs : list text) (run : text) :
  In run runs -> int_accepts limit run = false ->
  map_outcome (python_int limit) runs = Raise ValueError.
Proof.
  induction runs as [|r runs IH]; intros Hin Hrej; [contradiction|].
  simpl. unfold python_int at 1. fold (int_accepts limit r).
  destruct Hin as [Heq|Hin].
  - subst r. unfold int_accepts in Hrej. apply negb_false_iff in Hrej.
    rewrite Hrej. reflexivity.
  - destruct ((640 <? length r) && (0 <? limit) && (limit <? length r));
      [reflexivity|].
    cbn [bind]. rewrite (IH Hin Hrej). reflexivity.
Qed.

(** X5. The sample comes from the last run of digits of the frame and
    from nothing else: when [int] accepts the runs and the last one
    converts to the voltage [v], the frame appends exactly the sample
    [(elapsed, v)], whatever text and numbers precede that run and
    whatever text without digits follows it. *)
Theorem frame_sample_is_last_run :
  forall (limit : nat) (pre r post : text) (elapsed v : float) (s : scope float),
    r <> [] -> forallb is_digit r = true ->
    forallb (fun c => negb (is_digit c)) post = true ->
    (pre = [] \/ exists pre' c, pre = pre' ++ [c] /\ is_digit c = false) ->
    forallb (int_accepts limit) (findall_digits (pre ++ r ++ post)) = true ->
    adc_to_voltage (decimal_value r) = Ok v ->
    read_frame limit (RxLine (pre ++ r ++ post)) elapsed s =
    mkRun (append_sample max_data_points elapsed v s) [PrintVoltage] None.
Proof.
  intros limit pre r post elapsed v s Hne Hr Hpost Hpre Hacc Hv.
  apply read_frame_sample with (r := r); auto.
  exists pre, post. auto.
Qed.

Lemma frame_sample_is_last_run_witness :
  read_frame 4300 (RxLine (txt "t=12 ch3: 4095 mV")) (S754_zero false) (init float) =
  mkRun (append_sample max_data_points (S754_zero false) volts_max (init float))
        [PrintVoltage] None.
Proof.
  apply (@frame_sample_is_last_run 4300 (txt "t=12 ch3: ") (txt "4095") (txt " mV")).
  - discriminate.
  - reflexivity.
  - reflexivity.
  - right. exists (txt "t=12 ch3:"), SP. split; reflexivity.
  - vm_compute. reflexivity.
  - vm_compute. reflexivity.
Defined.

(** X6. One run of digits that [int] refuses for its length, anywhere
    in the frame, costs the whole frame: the ValueError is caught, the
    message for invalid data is printed, nothing is appended even when
    the last run is a good code, and the reader goes on. *)
Theorem overlong_run_drops_frame :
  forall (limit : nat) (line run : text) (elapsed : float) (s : scope float),
    In run (findall_digits line) -> int_accepts limit run = false ->
    read_frame limit (RxLine line) elapsed s = mkRun s [PrintInvalidData] None.
Proof.
  intros limit line run elapsed s Hin Hrej.
  unfold read_frame, read_frame_body. cbn [receive bind].
  rewrite findall_digits_strip, (map_python_int_rejects limit _ run Hin Hrej).
  reflexivity.
Qed.

Lemma overlong_run_drops_frame_witness :
  let line := repeat (ascii_of_nat 57) 700 ++ txt " 4095" in
  read_frame 650 (RxLine line) (S754_zero false) (init float) =
  mkRun (init float) [PrintInvalidData] None.
Proof.
  cbv zeta.
  apply (@overlong_run_drops_frame 650 _ (repeat (ascii_of_nat 57) 700)).
  - vm_compute. left. reflexivity.
  - vm_compute. reflexivity.
Defined.

(** ** Smoothing and the plot *)

Section Smoothing.
Local Open Scope Q_scope.

Lemma Q_zero_literal : ratio (V := Q) 0 1 == 0.
Proof. reflexivity. Qed.





Lemma window_length (data : list Q) (w i : nat) :
  (i + w <= length data)%nat -> length (firstn w (skipn i data)) = w.
Proof. intros H. rewrite length_firstn, length_skipn. lia. Qed.


(** The outputs of the moving average, as means of windows. *)
Lemma moving_average_nth (data : list Q) (w : nat) (out : list Q) (i : nat) :
  (0 < w <= length data)%nat ->
  moving_average data w = Ok out ->
  (i < length data - w + 1)%nat ->
  nth i out 0 == mean (firstn w (skipn i data)).
Proof.
  intros Hw Hout Hi. unfold mean.
  rewrite window_length by lia.
  apply moving_average_mean; assumption.
Qed.

End Smoothing.

(** X7. With a window of [w] samples, [0 < w <= n], the moving average
    of [n] samples has [n - w + 1] values, and the one at position [i]
    is the arithmetic mean of the [w] samples from position [i] on. *)
Theorem moving_average_window_means :
  forall (data : list Q) (w : nat),
    0 < w <= length data ->
    exists out,
      moving_average data w = Ok out /\
      length out = length data - w + 1 /\
      forall i, i < length data - w + 1 ->
        (nth i out 0 == mean (firstn w (skipn i data)))%Q.
Proof.
  intros data w Hw.
  destruct (moving_average_full data Hw) as (out & Hout & Hlen).
  exists out. split; [exact Hout|]. split; [exact Hlen|].
  intros i Hi. apply moving_average_nth; assumption.
Qed.

Lemma moving_average_window_means_witness :
  exists out,
    moving_average (V := Q) [1; 2; 3; 4; 10]%Q 3 = Ok out /\
    length out = 3 /\
    (nth 2 out 0 == 17 # 3)%Q.
Proof.
  destruct (@moving_average_window_means [1; 2; 3; 4; 10]%Q 3)
    as (out & Hout & Hlen & Hmean); [simpl; lia|].
  exists out. split; [exact Hout|]. split; [exact Hlen|].
  rewrite (Hmean 2%nat) by (simpl; lia). reflexivity.
Defined.



(** X9. With at least five samples, each with its timestamp,
    [update_plot] draws [n - 4] points: point [i] pairs the timestamp of
    sample [i] with the mean of the samples [i] to [i + 4], so the curve
    starts at the first timestamp and stops four samples before the
    last; the handler raises nothing. *)
Theorem update_plot_curve :
  forall (s : scope Q),
    aligned s -> 5 <= length (data s) ->
    let n := length (data s) in
    exists ys,
      update_plot s = mkRun (set_curve (firstn (n - 4) (timestamps s), ys) s) [] None /\
      length ys = n - 4 /\
      forall i, i < n - 4 ->
        (nth i ys 0 == mean (firstn 5 (skipn i (data s))))%Q.
Proof.
  intros s Ha Hn n. unfold aligned in Ha.
  destruct (moving_average_full (data s) (w := 5) ltac:(lia)) as (out & Hout & Hlen).
  exists out.
  assert (Hupd : update_plot s =
                 mkRun (set_curve (firstn (n - 4) (timestamps s), out) s) [] None).
  { unfold update_plot. fold n.
    assert (Hmin : Nat.min n (length (timestamps s)) = n) by (unfold n; lia).
    rewrite Hmin.
    assert (Hfd : firstn n (data s) = data s) by apply firstn_all.
    assert (Hft : firstn n (timestamps s) = timestamps s)
      by (unfold n; rewrite <- Ha; apply firstn_all).
    rewrite Hfd, Hft, Hout.
    replace (length out) with (n - 4) by (unfold n; lia).
    destruct (data s) as [|y ys]; [simpl in Hn; lia|].
    destruct (timestamps s) as [|t ts]; [simpl in Ha; lia|].
    reflexivity. }
  split; [exact Hupd|]. split; [unfold n; lia|].
  intros i Hi. apply moving_average_nth; [lia | exact Hout | unfold n in Hi; lia].
Qed.

Lemma update_plot_curve_witness :
  let s := with_buffer [0; 1; 2; 3; 4; 5]%Q [6; 0; 0; 0; 4; 1]%Q in
  exists ys,
    curve (final (update_plot s)) = ([0; 1]%Q, ys) /\
    (nth 0 ys 0 == 2)%Q /\ (nth 1 ys 0 == 1)%Q.
Proof.
  cbv zeta.
  destruct (@update_plot_curve (with_buffer [0; 1; 2; 3; 4; 5]%Q [6; 0; 0; 0; 4; 1]%Q))
    as (ys & Hrun & _ & Hmean).
  - reflexivity.
  - simpl. lia.
  - exists ys. rewrite Hrun. split; [reflexivity|].
    split; [rewrite (Hmean 0%nat) | rewrite (Hmean 1%nat)];
      try (simpl; lia); reflexivity.
Defined.

(** ** The low-pass filter *)

Section FilterLemmas.
Context {V : Type} `{Arith V}.

Lemma lfilter_from_prefix (b a : list V) (k : nat) :
  forall (x xh yh : list V),
    firstn k (lfilter_from b a xh yh x) = lfilter_from b a xh yh (firstn k x).
Proof.
  induction k as [|k IH]; intros x xh yh; [reflexivity|].
  destruct x as [|xn x]; [reflexivity|].
  cbn [lfilter_from firstn]. rewrite IH. reflexivity.
Qed.

End FilterLemmas.

(** X10. The low-pass filter is causal: its first [k] outputs are what
    it returns for the first [k] samples alone, so a filtered value
    never depends on a later sample (and the filter has no way to
    cancel its own delay). *)
Theorem low_pass_filter_causal :
  forall (V : Type) (A : Arith V)
         (butter : nat -> V -> outcome (list V * list V))
         (data : list V) (cutoff_freq sampling_rate : V) (order k : nat),
    low_pass_filter butter (firstn k data) cutoff_freq sampling_rate order =
    match low_pass_filter butter data cutoff_freq sampling_rate order with
    | Ok filtered => Ok (firstn k filtered)
    | Raise e => Raise e
    end.
Proof.
  intros V A butter data cutoff_freq sampling_rate order k.
  unfold low_pass_filter.
  destruct (butter order _) as [[b a]|e]; cbn [bind fst snd]; [|reflexivity].
  unfold lfilter. rewrite lfilter_from_prefix. reflexivity.
Qed.



(** ** The spectrum *)

(** X12. When the first two timestamps are equal, [compute_fft] on a
    buffer that is not empty raises ZeroDivisionError at
    [1.0 / (2.0 * T)]: nothing is plotted and the scope is unchanged. *)
Theorem compute_fft_equal_timestamps :
  forall (fft_abs : list Q -> list Q) (s : scope Q) (t0 t1 : Q) (rest : list Q),
    timestamps s = t0 :: t1 :: rest ->
    data s <> [] ->
    (t1 == t0)%Q ->
    compute_fft fft_abs s = mkRun s [] (Some ZeroDivisionError).
Proof.
  intros fft_abs s t0 t1 rest Hts Hd Heq.
  unfold compute_fft, float_truediv. rewrite Hts. cbn [nth_error].
  destruct (data s) as [|y ys]; [contradiction|]. cbn [length Nat.ltb Nat.leb].
  assert (Hz : is_zero (mul (ratio 2 1) (sub t1 t0)) = true).
  { cbn [is_zero mul sub ratio Q_Arith]. apply Qeq_bool_iff.
    change (inject_Z 2) with 2%Q. change (inject_Z 1) with 1%Q.
    rewrite Heq. field. }
  rewrite Hz. reflexivity.
Qed.

Lemma compute_fft_equal_timestamps_witness :
  let s := with_buffer [3 # 2; 6 # 4; 2]%Q [1; 5; 2]%Q in
  compute_fft dft_abs_of_constant s = mkRun s [] (Some ZeroDivisionError).
Proof.
  cbv zeta.
  apply (@compute_fft_equal_timestamps dft_abs_of_constant _ (3 # 2)%Q (6 # 4)%Q [2%Q]).
  - reflexivity.
  - discriminate.
  - reflexivity.
Defined.

(** ** Minimum, maximum and the axis ranges *)

Section Extremes.
Local Open Scope Q_scope.

Lemma min_of_below_start (l : list Q) (x : Q) : EPTScope.min_of x l <= x.
Proof.
  revert x. induction l as [|y l IH]; intros x; simpl; [apply Qle_refl|].
  cbn [leb Q_Arith]. destruct (Qle_bool x y) eqn:Hxy.
  - apply IH.
  - apply Qle_trans with y; [apply IH|].
    apply Qlt_le_weak. apply Qnot_le_lt. intro Hc.
    apply Qle_bool_iff in Hc. congruence.
Qed.

Lemma min_of_below_all (l : list Q) (x y : Q) :
  In y l -> EPTScope.min_of x l <= y.
Proof.
  revert x. induction l as [|z l IH]; intros x Hy; [contradiction|].
  simpl. cbn [leb Q_Arith]. destruct Hy as [->|Hy]; [|apply IH; exact Hy].
  destruct (Qle_bool x y) eqn:Hxy.
  - apply Qle_trans with x; [apply min_of_below_start|].
    apply Qle_bool_iff. exact Hxy.
  - apply min_of_below_start.
Qed.

Lemma min_of_member (l : list Q) (x : Q) : In (EPTScope.min_of x l) (x :: l).
Proof.
  revert x. induction l as [|y l IH]; intros x; [left; reflexivity|].
  simpl. cbn [leb Q_Arith]. destruct (Qle_bool x y).
  - destruct (IH x) as [H|H]; [left; exact H|right; right; exact H].
  - right. apply IH.
Qed.

Lemma max_of_above_start (l : list Q) (x : Q) : x <= EPTScope.max_of x l.
Proof.
  revert x. induction l as [|y l IH]; intros x; simpl; [apply Qle_refl|].
  cbn [leb Q_Arith]. destruct (Qle_bool y x) eqn:Hxy.
  - apply IH.
  - apply Qle_trans with y; [|apply IH].
    apply Qlt_le_weak. apply Qnot_le_lt. intro Hc.
    apply Qle_bool_iff in Hc. congruence.
Qed.

Lemma max_of_above_all (l : list Q) (x y : Q) :
  In y l -> y <= EPTScope.max_of x l.
Proof.
  revert x. induction l as [|z l IH]; intros x Hy; [contradiction|].
  simpl. cbn [leb Q_Arith]. destruct Hy as [->|Hy]; [|apply IH; exact Hy].
  destruct (Qle_bool y x) eqn:Hxy.
  - apply Qle_trans with x; [|apply max_of_above_start].
    apply Qle_bool_iff. exact Hxy.
  - apply max_of_above_start.
Qed.

Lemma max_of_member (l : list Q) (x : Q) : In (EPTScope.max_of x l) (x :: l).
Proof.
  revert x. induction l as [|y l IH]; intros x; [left; reflexivity|].
  simpl. cbn [leb Q_Arith]. destruct (Qle_bool y x).
  - destruct (IH x) as [H|H]; [left; exact H|right; right; exact H].
  - right. apply IH.
Qed.

(** The two extremes bound the whole list. *)
Lemma extremes_bound (x : Q) (l : list Q) :
  within (EPTScope.min_of x l) (EPTScope.max_of x l) (x :: l).
Proof.
  intros y [<-|Hy]; split.
  - apply min_of_below_start.
  - apply max_of_above_start.
  - apply min_of_below_all. exact Hy.
  - apply max_of_above_all. exact Hy.
Qed.

End Extremes.

(** X13. For data that is not empty, [auto_scale_y_axis] sets a range
    that contains every value: it runs from the least value minus a
    tenth of the spread to the greatest value plus a tenth of the
    spread (and so shrinks to a point for a constant signal). *)
Theorem auto_scale_y_contains_data :
  forall (data : list Q),
    data <> [] ->
    exists lo hi mn mx,
      auto_scale_y_axis data = Some (lo, hi) /\
      In mn data /\ In mx data /\
      within mn mx data /\
      (lo == mn - (1 # 10) * (mx - mn))%Q /\
      (hi == mx + (1 # 10) * (mx - mn))%Q /\
      within lo hi data.
Proof.
  intros [|y ys] Hne; [contradiction|].
  exists (sub (EPTScope.min_of y ys)
              (mul (ratio 1 10) (sub (EPTScope.max_of y ys) (EPTScope.min_of y ys)))),
         (add (EPTScope.max_of y ys)
              (mul (ratio 1 10) (sub (EPTScope.max_of y ys) (EPTScope.min_of y ys)))),
         (EPTScope.min_of y ys), (EPTScope.max_of y ys).
  pose proof (@extremes_bound y ys) as Hb.
  assert (Hspread : (EPTScope.min_of y ys <= EPTScope.max_of y ys)%Q).
  { destruct (Hb y (or_introl eq_refl)) as [H1 H2].
    apply Qle_trans with y; assumption. }
  split; [reflexivity|].
  split; [apply min_of_member|]. split; [apply max_of_member|].
  split; [exact Hb|].
  cbn [add sub mul ratio Q_Arith].
  change (inject_Z 1 / inject_Z 10)%Q with (1 # 10)%Q.
  split; [reflexivity|]. split; [reflexivity|].
  intros z Hz. destruct (Hb z Hz) as [H1 H2].
  set (mn := EPTScope.min_of y ys) in *. set (mx := EPTScope.max_of y ys) in *.
  split; lra.
Qed.

Lemma auto_scale_y_contains_data_witness :
  exists lo hi,
    auto_scale_y_axis [1; -2; 3]%Q = Some (lo, hi) /\
    (lo == - (5 # 2))%Q /\ (hi == 7 # 2)%Q /\ within lo hi [1; -2; 3]%Q.
Proof.
  destruct (@auto_scale_y_contains_data [1; -2; 3]%Q)
    as (lo & hi & mn & mx & Hr & _ & _ & _ & _ & _ & Hw); [discriminate|].
  exists lo, hi. split; [exact Hr|].
  vm_compute in Hr. injection Hr as <- <-.
  split; [reflexivity|]. split; [reflexivity|]. exact Hw.
Defined.

(** X14. With two or more timestamps of which the first is not after
    the last, [auto_scale_x_axis] shows a window that ends at the
    latest timestamp, is at most [window_size] = 5 wide, and does not
    start before the first timestamp. *)
Theorem auto_scale_x_follows_latest :
  forall (t0 t1 : Q) (rest : list Q),
    let timestamps := t0 :: t1 :: rest in
    let latest := last timestamps t0 in
    (t0 <= latest)%Q ->
    exists start,
      auto_scale_x_axis timestamps 5%Q = Some (start, latest) /\
      (t0 <= start)%Q /\ (start <= latest)%Q /\ (latest - start <= 5)%Q.
Proof.
  intros t0 t1 rest timestamps latest Hle.
  exists (py_max t0 (sub latest 5%Q)).
  split; [reflexivity|].
  unfold py_max. cbn [leb sub Q_Arith].
  destruct (Qle_bool (latest - 5) t0) eqn:Hc.
  - apply Qle_bool_iff in Hc. repeat split; lra.
  - assert (Hlt : (t0 < latest - 5)%Q).
    { apply Qnot_le_lt. intro H. apply Qle_bool_iff in H. congruence. }
    repeat split; lra.
Qed.

Lemma auto_scale_x_follows_latest_witness :
  auto_scale_x_axis [0; 2; 4; 9]%Q 5%Q = Some (4%Q, 9%Q) /\
  auto_scale_x_axis [7; 8; 9]%Q 5%Q = Some (7%Q, 9%Q).
Proof.
  destruct (@auto_scale_x_follows_latest 0%Q 2%Q [4; 9]%Q) as (start & Hr & _);
    [discriminate|].
  split; vm_compute; reflexivity.
Defined.



(** ** Import *)

Section ImportLemmas.
Context {V : Type}.
Variable float_of_text : text -> outcome V.

(** A line that is not made of two fields changes nothing. *)
Lemma parse_rows_skips (line : text) (rest : list text) (ts ds : list V) :
  length (split_ws (strip line)) <> 2 ->
  parse_rows float_of_text (line :: rest) ts ds =
  parse_rows float_of_text rest ts ds.
Proof.
  intros Hn. cbn [parse_rows].
  destruct (split_ws (strip line)) as [|p0 [|p1 [|p2 ps]]]; try reflexivity.
  simpl in Hn. lia.
Qed.

(** A line of two fields with one that is not a number fails the loop,
    wherever it stands. *)
Lemma parse_rows_fails (lines : list text) (line p0 p1 : text) :
  In line lines ->
  split_ws (strip line) = [p0; p1] ->
  (exists e, float_of_text p0 = Raise e) \/ (exists e, float_of_text p1 = Raise e) ->
  forall ts ds, exists e, parse_rows float_of_text lines ts ds = Raise e.
Proof.
  intros Hin Hsplit Hbad.
  induction lines as [|l lines IH]; intros ts ds; [contradiction|].
  cbn [parse_rows]. destruct Hin as [->|Hin].
  - rewrite Hsplit. destruct Hbad as [[e He]|[e He]].
    + rewrite He. exists e. reflexivity.
    + destruct (float_of_text p0) as [t|e0]; [|exists e0; reflexivity].
      rewrite He. exists e. reflexivity.
  - destruct (split_ws (strip l)) as [|q0 [|q1 [|q2 qs]]]; try (apply IH; exact Hin).
    destruct (float_of_text q0) as [t|e0]; [|exists e0; reflexivity].
    destruct (float_of_text q1) as [v|e1]; [|exists e1; reflexivity].
    cbn [bind]. apply IH. exact Hin.
Qed.

End ImportLemmas.

(** X16. A first line that is not made of exactly two fields, such as
    a header [timestamp,voltage] or an empty line, is skipped: the
    import gives what it gives for the rest of the file. *)
Theorem open_signal_skips_header :
  forall (V : Type) (float_of_text : text -> outcome V)
         (file_path header rest : text) (s : scope V),
    no_newline header ->
    length (split_ws (strip (header ++ [LF]))) <> 2 ->
    open_signal float_of_text file_path (Some (header ++ LF :: rest)) s =
    open_signal float_of_text file_path (Some rest) s.
Proof.
  intros V float_of_text file_path header rest s Hh Hn.
  unfold open_signal, readlines.
  rewrite readlines_from_line by exact Hh. cbn [app].
  rewrite parse_rows_skips by exact Hn. reflexivity.
Qed.

Lemma open_signal_skips_header_witness :
  let s := final (open_signal nat_of_text (txt "run.txt")
                    (Some (txt "timestamp,voltage" ++ LF :: txt "0 5
1 6
")) (init nat)) in
  timestamps s = [0; 1] /\ data s = [5; 6].
Proof.
  cbv zeta.
  rewrite (@open_signal_skips_header nat nat_of_text (txt "run.txt")
             (txt "timestamp,voltage") (txt "0 5
1 6
") (init nat)).
  - split; vm_compute; reflexivity.
  - reflexivity.
  - vm_compute. discriminate.
Defined.

(** X17. The import is all or nothing: one line of two fields of which
    one is not a number, anywhere in the file, makes [open_signal]
    print the loading error and leave the whole scope, the buffer
    included, as it was. *)
Theorem open_signal_all_or_nothing :
  forall (V : Type) (float_of_text : text -> outcome V)
         (file_path content line p0 p1 : text) (s : scope V),
    endswith file_path (txt ".txt") = true ->
    In line (readlines content) ->
    split_ws (strip line) = [p0; p1] ->
    (exists e, float_of_text p0 = Raise e) \/ (exists e, float_of_text p1 = Raise e) ->
    open_signal float_of_text file_path (Some content) s =
    mkRun s [PrintLoadError] None.
Proof.
  intros V float_of_text file_path content line p0 p1 s Hp Hin Hsplit Hbad.
  unfold open_signal.
  destruct file_path as [|c p]; [discriminate Hp|]. rewrite Hp.
  destruct (@parse_rows_fails V float_of_text _ _ _ _ Hin Hsplit Hbad [] []) as [e He].
  rewrite He. reflexivity.
Qed.

Lemma open_signal_all_or_nothing_witness :
  let s := with_buffer [7] [8] in
  open_signal nat_of_text (txt "run.txt") (Some (txt "0 5
1 x6
2 7
")) s = mkRun s [PrintLoadError] None.
Proof.
  cbv zeta.
  apply (@open_signal_all_or_nothing nat nat_of_text (txt "run.txt") _
           (txt "1 x6
") (txt "1") (txt "x6")).
  - reflexivity.
  - vm_compute. right. left. reflexivity.
  - reflexivity.
  - right. exists ValueError. reflexivity.
Defined.

(** ** The port selector *)

Lemma find_text_nth (t : string) (l : list string) (i : nat) :
  find_text t l = Some i -> nth i l EmptyString = t.
Proof.
  revert i. induction l as [|x l IH]; intros i Hf; [discriminate|].
  simpl in Hf. destruct (String.eqb_spec x t) as [->|Hne].
  - injection Hf as <-. reflexivity.
  - destruct (find_text t l) as [j|]; [|discriminate].
    injection Hf as <-. simpl. apply IH. reflexivity.
Qed.

Lemma find_text_found (t : string) (l : list string) :
  existsb (String.eqb t) l = true -> exists i, find_text t l = Some i.
Proof.
  induction l as [|x l IH]; intros He; [discriminate|].
  simpl in *. destruct (String.eqb_spec x t) as [->|Hne]; [eauto|].
  apply orb_true_iff in He. destruct He as [He|He].
  - apply String.eqb_eq in He. congruence.
  - destruct (IH He) as [i Hi]. rewrite Hi. simpl. eauto.
Qed.

(** X18. A scan that finds ports fills the selector with exactly the
    ports found and keeps the selected port selected when it is still
    there; otherwise the first port found becomes the selection. The
    scan changes nothing else. *)
Theorem refresh_ports_keeps_selection :
  forall (V : Type) (first : string) (others : list string)
         (box : port_box) (s : scope V),
    items box <> [] ->
    let available_ports := first :: others in
    let ui := refresh_ports available_ports (box, s) in
    items (fst ui) = available_ports /\
    snd ui = s /\
    current_text (fst ui) =
      (if existsb (String.eqb (current_text box)) available_ports
       then current_text box else first).
Proof.
  intros V first others box s Hne available_ports ui.
  unfold ui, refresh_ports. cbn [fst snd].
  destruct (items box) as [|x xs] eqn:Hi; [contradiction|]. cbn [length Nat.ltb Nat.leb].
  destruct (existsb (String.eqb (current_text box)) available_ports) eqn:He.
  - cbn [fst snd]. unfold set_current_text.
    destruct (find_text_found _ _ He) as [i Hfi].
    change (items (add_items available_ports box_clear)) with available_ports.
    rewrite Hfi. cbn [items fst]. repeat split.
    unfold current_text at 1. cbn [current_index items].
    apply find_text_nth. exact Hfi.
  - cbn [fst snd]. repeat split.
Qed.

Lemma refresh_ports_keeps_selection_witness :
  let box := mkBox ["COM1"; "COM4"]%string (Some 1) in
  let ui := refresh_ports ["COM3"; "COM4"; "COM7"]%string (box, init Q) in
  current_text box = "COM4"%string /\
  items (fst ui) = ["COM3"; "COM4"; "COM7"]%string /\
  current_text (fst ui) = "COM4"%string.
Proof.
  cbv zeta.
  destruct (@refresh_ports_keeps_selection Q "COM3"%string ["COM4"; "COM7"]%string
              (mkBox ["COM1"; "COM4"]%string (Some 1)) (init Q))
    as (Hitems & _ & Hcur); [discriminate|].
  split; [reflexivity|]. split; [exact Hitems|]. rewrite Hcur. reflexivity.
Defined.

(** X19. A scan that finds no port leaves the placeholder as the only
    item and disables the selector; a start is then refused with the
    warning and changes nothing; and no later scan enables the
    selector again, whatever ports it finds. *)
Theorem refresh_ports_without_ports :
  forall (V : Type) (box : port_box) (s : scope V) (baud_rate : Z) (opens : bool)
         (later : list (list string)),
    let ui := refresh_ports [] (box, s) in
    let ui' := fold_left (fun u ports => refresh_ports ports u) later ui in
    items (fst ui) = ["No ports available"%string] /\
    com_select_enabled (snd ui) = false /\
    start_signal (current_text (fst ui)) baud_rate opens (snd ui) =
      mkRun (snd ui) [WarnNoPortAvailable] None /\
    com_select_enabled (snd ui') = false.
Proof.
  intros V box s baud_rate opens later ui ui'.
  split; [reflexivity|]. split; [reflexivity|]. split; [reflexivity|].
  unfold ui'. assert (Hd : com_select_enabled (snd ui) = false) by reflexivity.
  revert Hd. generalize ui. clear ui ui'.
  induction later as [|ports later IH]; intros u Hd; [exact Hd|].
  cbn [fold_left]. apply IH.
  unfold refresh_ports. destruct ports as [|p ps]; [reflexivity|].
  destruct (existsb _ _); exact Hd.
Qed.

(** ** The window as a state machine *)

Section ControlsLemmas.
Context {V : Type} `{Arith V}.
Implicit Types (s : scope V).

Lemma update_plot_controls s : controls (final (update_plot s)) = controls s.
Proof.
  unfold update_plot. destruct (data s), (timestamps s); try reflexivity.
  destruct (moving_average _ 5); reflexivity.
Qed.

Lemma apply_filter_controls (butter : nat -> V -> outcome (list V * list V)) s :
  controls (final (apply_filter butter s)) = controls s.
Proof.
  unfold apply_filter. destruct (data s); [reflexivity|].
  destruct (low_pass_filter _ _ _ _ _); [|reflexivity].
  cbn [final]. rewrite update_plot_controls. reflexivity.
Qed.

Lemma compute_fft_controls (fft_abs : list V -> list V) s :
  controls (final (compute_fft fft_abs s)) = controls s.
Proof.
  unfold compute_fft. destruct (0 <? _); [|reflexivity].
  destruct (nth_error _ 1); [|reflexivity].
  destruct (nth_error _ 0); [|reflexivity].
  destruct (float_truediv _ _); reflexivity.
Qed.

Lemma open_signal_controls (float_of_text : text -> outcome V)
    (file_path : text) (content : option text) s :
  controls (final (open_signal float_of_text file_path content s)) = controls s.
Proof.
  unfold open_signal. destruct file_path; [reflexivity|].
  destruct (endswith _ _); [|reflexivity].
  destruct content; [|reflexivity].
  destruct (parse_rows _ _ _ _) as [[ts ds]|]; reflexivity.
Qed.

Lemma clear_screen_controls (yes : bool) s :
  controls (final (clear_screen yes s)) = controls s.
Proof. destruct yes; reflexivity. Qed.

Lemma append_sample_controls (cap : nat) (t v : V) s :
  controls (append_sample cap t v s) = controls s.
Proof. unfold append_sample. destruct (cap <? _); reflexivity. Qed.

End ControlsLemmas.

(** X20. Drawing, filtering, the FFT, an import and a clear touch
    nothing but the buffer and the drawings: the port, the acquisition
    flag, the timer, the reader count and the enabled state of the
    buttons and selectors are exactly what they were. *)
Theorem display_handlers_keep_controls :
  forall (V : Type) (A : Arith V)
         (butter : nat -> V -> outcome (list V * list V))
         (fft_abs : list V -> list V) (float_of_text : text -> outcome V)
         (file_path : text) (content : option text) (yes : bool) (s : scope V),
    controls (final (update_plot s)) = controls s /\
    controls (final (apply_filter butter s)) = controls s /\
    controls (final (compute_fft fft_abs s)) = controls s /\
    controls (final (open_signal float_of_text file_path content s)) = controls s /\
    controls (final (clear_screen yes s)) = controls s.
Proof.
  intros. split; [apply update_plot_controls|].
  split; [apply apply_filter_controls|]. split; [apply compute_fft_controls|].
  split; [apply open_signal_controls | apply clear_screen_controls].
Qed.

Section MachineLemmas.
Variable limit : nat.
Variable butter : nat -> float -> outcome (list float * list float).
Variable fft_abs : list float -> list float.
Variable float_of_text : text -> outcome float.
Implicit Types (s : scope float) (ui : port_box * scope float).

Lemma controls_live s s' :
  controls s' = controls s -> live_while_running s' = live_while_running s.
Proof.
  unfold controls, live_while_running, port_is_open. intros Hc.
  injection Hc as -> -> -> _ _ _ _ _. reflexivity.
Qed.

Lemma controls_pause_btn s s' :
  controls s' = controls s -> pause_btn_enabled s' = pause_btn_enabled s.
Proof. unfold controls. intros Hc. injection Hc as _ _ _ _ _ -> _ _. reflexivity. Qed.

Lemma read_frame_live input elapsed s :
  live_while_running s = true ->
  live_while_running (final (read_frame limit input elapsed s)) = true.
Proof.
  intros Hl. unfold read_frame, read_frame_body.
  assert (Hstop : live_while_running
            (close_port (set_timer false (set_running false s))) = true).
  { unfold close_port. cbn [ser set_timer set_running].
    destruct (ser s) as [h|]; [destruct (is_open h)|]; reflexivity. }
  destruct input as [line| |]; cbn [receive bind final]; auto.
  destruct (map_outcome _ _) as [[|n ns]|[]]; cbn [bind final]; auto.
  destruct (adc_to_voltage _) as [v|[]]; cbn [bind final]; auto.
  rewrite (controls_live (s := s)); [exact Hl|apply append_sample_controls].
Qed.

Lemma read_frame_pause_btn input elapsed s :
  pause_btn_enabled (final (read_frame limit input elapsed s)) = pause_btn_enabled s.
Proof.
  unfold read_frame, read_frame_body.
  assert (Hstop : pause_btn_enabled
            (close_port (set_timer false (set_running false s))) = pause_btn_enabled s).
  { unfold close_port. cbn [ser set_timer set_running].
    destruct (ser s) as [h|]; [destruct (is_open h)|]; reflexivity. }
  destruct input as [line| |]; cbn [receive bind final]; auto.
  destruct (map_outcome _ _) as [[|n ns]|[]]; cbn [bind final]; auto.
  destruct (adc_to_voltage _) as [v|[]]; cbn [bind final]; auto.
  apply controls_pause_btn, append_sample_controls.
Qed.

Lemma step_live ui e :
  live_while_running (snd ui) = true ->
  live_while_running (snd (step limit butter fft_abs float_of_text ui e)) = true.
Proof.
  destruct ui as [box s]. cbn [snd]. intros Hl.
  destruct e; cbn [step fst snd].
  - unfold refresh_ports. cbn [fst snd]. destruct available_ports; [exact Hl|].
    destruct (existsb _ _); exact Hl.
  - unfold start_signal. destruct (String.eqb _ _); [exact Hl|].
    destruct opens; [reflexivity|exact Hl].
  - unfold pause_signal, close_port. cbn [final ser set_timer set_running].
    destruct (ser s) as [h|]; [destruct (is_open h)|]; reflexivity.
  - rewrite (controls_live (s := s)); [exact Hl|apply clear_screen_controls].
  - destruct (is_running s && port_is_open s); cbn [snd]; [|exact Hl].
    apply read_frame_live. exact Hl.
  - destruct (timer_active s); cbn [snd]; [|exact Hl].
    rewrite (controls_live (s := s)); [exact Hl|apply update_plot_controls].
  - rewrite (controls_live (s := s)); [exact Hl|apply apply_filter_controls].
  - rewrite (controls_live (s := s)); [exact Hl|apply compute_fft_controls].
  - rewrite (controls_live (s := s)); [exact Hl|apply open_signal_controls].
  - unfold closeEvent, close_port. cbn [ser set_running].
    destruct (ser s) as [h|]; [destruct (is_open h)|]; reflexivity.
Qed.

Lemma step_pause_btn ui e :
  pause_btn_enabled (snd ui) = false ->
  pause_btn_enabled (snd (step limit butter fft_abs float_of_text ui e)) = false.
Proof.
  destruct ui as [box s]. cbn [snd]. intros Hl.
  destruct e; cbn [step fst snd].
  - unfold refresh_ports. cbn [fst snd]. destruct available_ports; [exact Hl|].
    destruct (existsb _ _); exact Hl.
  - unfold start_signal. destruct (String.eqb _ _); [exact Hl|].
    destruct opens; exact Hl.
  - reflexivity.
  - rewrite (controls_pause_btn (s := s)); [exact Hl|apply clear_screen_controls].
  - destruct (is_running s && port_is_open s); cbn [snd]; [|exact Hl].
    rewrite read_frame_pause_btn. exact Hl.
  - destruct (timer_active s); cbn [snd]; [|exact Hl].
    rewrite (controls_pause_btn (s := s)); [exact Hl|apply update_plot_controls].
  - rewrite (controls_pause_btn (s := s)); [exact Hl|apply apply_filter_controls].
  - rewrite (controls_pause_btn (s := s)); [exact Hl|apply compute_fft_controls].
  - rewrite (controls_pause_btn (s := s)); [exact Hl|apply open_signal_controls].
  - unfold closeEvent, close_port. cbn [ser set_running].
    destruct (ser s) as [h|]; [destruct (is_open h)|]; exact Hl.
Qed.


End MachineLemmas.

(** X21. Through any sequence of events, scans, starts that succeed or
    fail, pauses, clears, frames of any kind, redraws, filterings, FFTs,
    imports and the closing of the window, a window in which a flagged
    acquisition has its port open and its timer running stays so. *)
Theorem running_means_port_open :
  forall (limit : nat) (butter : nat -> float -> outcome (list float * list float))
         (fft_abs : list float -> list float)
         (float_of_text : text -> outcome float)
         (events : list event) (ui : port_box * scope float),
    live_while_running (snd ui) = true ->
    live_while_running
      (snd (run_events limit butter fft_abs float_of_text events ui)) = true.
Proof.
  intros limit butter fft_abs float_of_text events.
  induction events as [|e events IH]; intros ui Hl; [exact Hl|].
  cbn [run_events fold_left]. apply IH. apply step_live. exact Hl.
Qed.

Lemma running_means_port_open_witness :
  let events := [EvRefresh ["COM3"%string]; EvStart 115200 true;
                 EvFrame (RxLine (txt "4095")) (S754_zero false);
                 EvFrame RxSerialError (S754_zero false);
                 EvStart 115200 false; EvStart 9600 true; EvTick] in
  let s := snd (run_events 4300 (fun _ _ => Raise ValueError) (fun x => x)
                           (fun _ => Raise ValueError) events init_ui) in
  is_running s = true /\ port_is_open s = true /\ live_while_running s = true.
Proof.
  cbv zeta. split; [reflexivity|]. split; [reflexivity|].
  apply running_means_port_open. reflexivity.
Defined.

(** X22. Once the Pause button is disabled, as [pause_signal] leaves
    it, no sequence of events enables it again: after the first pause a
    restarted acquisition cannot be paused from the button. *)
Theorem pause_button_stays_disabled :
  forall (limit : nat) (butter : nat -> float -> outcome (list float * list float))
         (fft_abs : list float -> list float)
         (float_of_text : text -> outcome float)
         (events : list event) (ui : port_box * scope float),
    pause_btn_enabled (snd ui) = false ->
    pause_btn_enabled
      (snd (run_events limit butter fft_abs float_of_text events ui)) = false.
Proof.
  intros limit butter fft_abs float_of_text events.
  induction events as [|e events IH]; intros ui Hl; [exact Hl|].
  cbn [run_events fold_left]. apply IH. apply step_pause_btn. exact Hl.
Qed.

Lemma pause_button_stays_disabled_witness :
  let paused := run_events 4300 (fun _ _ => Raise ValueError) (fun x => x)
                  (fun _ => Raise ValueError)
                  [EvRefresh ["COM3"%string]; EvStart 115200 true; EvPause] init_ui in
  let again := run_events 4300 (fun _ _ => Raise ValueError) (fun x => x)
                  (fun _ => Raise ValueError) [EvStart 115200 true] paused in
  is_running (snd again) = true /\ pause_btn_enabled (snd again) = false.
Proof.
  cbv zeta. split; [reflexivity|].
  apply pause_button_stays_disabled. reflexivity.
Defined.




(** ** The point under the mouse *)

Section Nearest.
Local Open Scope Q_scope.

Lemma argmin_scan_spec (key : nat -> Q) (m : nat) : forall a b : nat,
  (b < a)%nat ->
  (forall j, (j < a)%nat -> key b <= key j) ->
  (forall j, (j < b)%nat -> key b < key j) ->
  (argmin_scan key b (seq a m) < a + m)%nat /\
  (forall j, (j < a + m)%nat -> key (argmin_scan key b (seq a m)) <= key j) /\
  (forall j, (j < argmin_scan key b (seq a m))%nat ->
     key (argmin_scan key b (seq a m)) < key j).
Proof.
  induction m as [|m IH]; intros a b Hba Hle Hlt; cbn [seq argmin_scan].
  - rewrite Nat.add_0_r. auto.
  - replace (a + S m)%nat with (S a + m)%nat by lia.
    destruct (Qle_bool (key b) (key a)) eqn:Hc.
    + apply Qle_bool_iff in Hc.
      apply IH; [lia| |exact Hlt].
      intros j Hj. destruct (Nat.eq_dec j a) as [->|]; [exact Hc|apply Hle; lia].
    + assert (Hab : key a < key b).
      { apply Qnot_le_lt. intro Hc'. apply Qle_bool_iff in Hc'. congruence. }
      apply IH; [lia| |].
      * intros j Hj. destruct (Nat.eq_dec j a) as [->|]; [apply Qle_refl|].
        apply Qlt_le_weak. eapply Qlt_le_trans; [exact Hab|apply Hle; lia].
      * intros j Hj. eapply Qlt_le_trans; [exact Hab|apply Hle; lia].
Qed.

(** The index [min(range(n), key=...)] and [np.argmin] return is the
    first one with the least key. *)
Lemma first_argmin_spec (key : nat -> Q) (n : nat) :
  (0 < n)%nat ->
  (first_argmin key n < n)%nat /\
  (forall j, (j < n)%nat -> key (first_argmin key n) <= key j) /\
  (forall j, (j < first_argmin key n)%nat -> key (first_argmin key n) < key j).
Proof.
  intros Hn. unfold first_argmin.
  assert (H0 : forall j, (j < 1)%nat -> key 0%nat <= key j).
  { intros j Hj. replace j with 0%nat by lia. apply Qle_refl. }
  destruct (@argmin_scan_spec key (n - 1) 1 0 ltac:(lia) H0
              ltac:(intros j Hj; lia)) as (A & B & C).
  replace (1 + (n - 1))%nat with n in A, B by lia.
  auto.
Qed.

Lemma distances_nth (sqrt : Q -> Q) (x y : Q) (ts : list Q) :
  forall (vs : list Q) (j : nat),
  length ts = length vs -> (j < length ts)%nat ->
  nth j (map sqrt (map (fun p => fst p + snd p)
          (combine (map (fun t => (t - x) * (t - x)) ts)
                   (map (fun v => (v - y) * (v - y)) vs)))) 0
  = sqrt ((nth j ts 0 - x) * (nth j ts 0 - x)
          + (nth j vs 0 - y) * (nth j vs 0 - y)).
Proof.
  induction ts as [|t ts IH]; intros [|v vs] j Hlen Hj;
    cbn [length] in Hlen, Hj; try lia.
  destruct j as [|j]; cbn [map combine nth fst snd]; [reflexivity|].
  apply IH; lia.
Qed.

(** X24 (find_nearest_point): with as many timestamps as values, the
    index returned is that of the first sample at the least distance
    from the mouse, and it is returned only when that distance is
    below 0.1; when nothing is returned every sample is at least 0.1
    away. The call does not raise. *)
Theorem find_nearest_point_is_nearest (sqrt : Q -> Q) (x_mouse y_mouse : Q)
    (s : scope Q) :
  timestamps s <> [] ->
  length (timestamps s) = length (data s) ->
  match find_nearest_point sqrt x_mouse y_mouse s with
  | Ok (Some i) =>
      (i < length (timestamps s))%nat /\
      distance_to sqrt x_mouse y_mouse s i < 1 # 10 /\
      (forall j, (j < length (timestamps s))%nat ->
         distance_to sqrt x_mouse y_mouse s i <= distance_to sqrt x_mouse y_mouse s j) /\
      (forall j, (j < i)%nat ->
         distance_to sqrt x_mouse y_mouse s i < distance_to sqrt x_mouse y_mouse s j)
  | Ok None =>
      forall j, (j < length (timestamps s))%nat ->
        1 # 10 <= distance_to sqrt x_mouse y_mouse s j
  | Raise _ => False
  end.
Proof.
  intros Hne Hlen. unfold find_nearest_point, distance_to.
  destruct (timestamps s) as [|t ts] eqn:Ht; [congruence|].
  destruct (data s) as [|v vs] eqn:Hd; [cbn in Hlen; lia|].
  unfold np_add. rewrite !length_map, Hlen, Nat.eqb_refl. cbn [bind].
  rewrite <- Hlen.
  set (distances := map sqrt _).
  assert (Hn : length distances = length (t :: ts)).
  { unfold distances. rewrite !length_map, length_combine, !length_map. lia. }
  assert (Hd' : forall j, (j < length (t :: ts))%nat ->
            nth j distances 0
            = sqrt ((nth j (t :: ts) 0 - x_mouse) * (nth j (t :: ts) 0 - x_mouse)
                    + (nth j (v :: vs) 0 - y_mouse) * (nth j (v :: vs) 0 - y_mouse))).
  { intros j Hj. unfold distances. apply distances_nth; assumption. }
  destruct (@first_argmin_spec (fun i => nth i distances 0) (length distances))
    as (Hr & Hle & Hlt); [rewrite Hn; cbn; lia|].
  set (r := first_argmin _ _) in *.
  rewrite Hn in Hr, Hle.
  destruct (Qle_bool (1 # 10) (nth r distances 0)) eqn:Hc.
  - apply Qle_bool_iff in Hc. intros j Hj.
    rewrite <- (Hd' j Hj). eapply Qle_trans; [exact Hc|apply Hle; exact Hj].
  - assert (Hlt' : nth r distances 0 < 1 # 10).
    { apply Qnot_le_lt. intro Hc'. apply Qle_bool_iff in Hc'. congruence. }
    split; [exact Hr|]. rewrite <- (Hd' r Hr).
    split; [exact Hlt'|]. split.
    + intros j Hj. rewrite <- (Hd' j Hj). apply Hle; exact Hj.
    + intros j Hj. rewrite <- (Hd' j) by lia. apply Hlt; exact Hj.
Qed.

Lemma find_nearest_point_is_nearest_witness :
  let s := with_buffer [0; 1; 2] [0; 1; 0] in
  find_nearest_point (fun q => q) (1 # 100) 0 s = Ok (Some 0%nat) /\
  distance_to (fun q => q) (1 # 100) 0 s 0 < 1 # 10 /\
  (forall j, (j < 3)%nat ->
     distance_to (fun q => q) (1 # 100) 0 s 0
     <= distance_to (fun q => q) (1 # 100) 0 s j).
Proof.
  intros s.
  pose proof (@find_nearest_point_is_nearest (fun q => q) (1 # 100) 0 s
                ltac:(discriminate) eq_refl) as H.
  assert (Hf : find_nearest_point (fun q => q) (1 # 100) 0 s = Ok (Some 0%nat))
    by (vm_compute; reflexivity).
  rewrite Hf in H. destruct H as (_ & Hlt & Hle & _).
  split; [exact Hf|]. split; [exact Hlt|exact Hle].
Defined.

(** X25 (_on_hover): over the plot, with a buffer that is not empty
    and has as many values as timestamps, the label shows the sample
    whose timestamp is nearest to the mouse, the first such sample when
    several are as near. *)
Theorem on_hover_shows_nearest_sample (x : Q) (w : EPTScope.window Q) :
  EPTScope.buffer_t w <> [] ->
  length (EPTScope.buffer_t w) = length (EPTScope.buffer_y w) ->
  exists idx : nat,
    (idx < length (EPTScope.buffer_t w))%nat /\
    EPTScopeView.on_hover true x w
    = Ok (EPTScopeView.LabelShown (nth idx (EPTScope.buffer_t w) 0)
                                  (nth idx (EPTScope.buffer_y w) 0)) /\
    (forall j, (j < length (EPTScope.buffer_t w))%nat ->
       Qabs (nth idx (EPTScope.buffer_t w) 0 - x)
       <= Qabs (nth j (EPTScope.buffer_t w) 0 - x)) /\
    (forall j, (j < idx)%nat ->
       Qabs (nth idx (EPTScope.buffer_t w) 0 - x)
       < Qabs (nth j (EPTScope.buffer_t w) 0 - x)).
Proof.
  intros Hne Hlen.
  destruct (@first_argmin_spec
              (fun i => Qabs (nth i (EPTScope.buffer_t w) 0 - x))
              (length (EPTScope.buffer_t w)))
    as (Hr & Hle & Hlt).
  { destruct (EPTScope.buffer_t w); [congruence|cbn; lia]. }
  eexists. split; [exact Hr|]. split; [|split; [exact Hle|exact Hlt]].
  unfold EPTScopeView.on_hover. cbn [negb].
  destruct (EPTScope.buffer_t w) as [|t0 ts] eqn:Hb; [congruence|].
  cbv beta iota zeta.
  rewrite (nth_error_nth' (EPTScope.buffer_y w) 0) by (rewrite <- Hlen; exact Hr).
  reflexivity.
Qed.

Lemma on_hover_shows_nearest_sample_witness :
  let w := EPTScope.mkWindow [0; 1; 2] [5; 6; 7] false ([], []) None in
  exists idx : nat,
    (idx < 3)%nat /\
    EPTScopeView.on_hover true (14 # 10) w
    = Ok (EPTScopeView.LabelShown (nth idx [0; 1; 2] 0) (nth idx [5; 6; 7] 0)) /\
    (forall j, (j < 3)%nat ->
       Qabs (nth idx [0; 1; 2] 0 - (14 # 10))
       <= Qabs (nth j [0; 1; 2] 0 - (14 # 10))) /\
    (forall j, (j < idx)%nat ->
       Qabs (nth idx [0; 1; 2] 0 - (14 # 10))
       < Qabs (nth j [0; 1; 2] 0 - (14 # 10))).
Proof.
  intros w.
  exact (@on_hover_shows_nearest_sample (14 # 10) w ltac:(discriminate) eq_refl).
Defined.

End Nearest.


(** ** The snapshot, the trigger line and the recorder *)

Lemma startswith_app (p l : text) : startswith (p ++ l) p = true.
Proof.
  induction p as [|a p IH]; [destruct l; reflexivity|].
  cbn [app startswith]. rewrite Ascii.eqb_refl. exact IH.
Qed.

Lemma endswith_app (l suffix : text) : endswith (l ++ suffix) suffix = true.
Proof. unfold endswith. rewrite rev_app_distr. apply startswith_app. Qed.

(** X26 (take_snapshot): for every name the dialog returns, the name
    the plot is exported to ends in .png in some letter case, begins
    with the name given, and is a name the handler would leave as it
    is. *)
Theorem snapshot_name_ends_in_png (fn : text) :
  fn <> [] ->
  exists name,
    EPTScopeView.snapshot_name fn = Some name /\
    endswith (EPTScopeView.lower name) (txt ".png") = true /\
    startswith name fn = true /\
    EPTScopeView.snapshot_name name = Some name.
Proof.
  intros Hne. destruct fn as [|c fn]; [congruence|].
  unfold EPTScopeView.snapshot_name at 1.
  destruct (endswith (EPTScopeView.lower (c :: fn)) (txt ".png")) eqn:He.
  - exists (c :: fn). split; [reflexivity|]. split; [exact He|].
    split; [rewrite <- (app_nil_r (c :: fn)) at 1; apply startswith_app|].
    unfold EPTScopeView.snapshot_name. rewrite He. reflexivity.
  - assert (Hpng : endswith (EPTScopeView.lower ((c :: fn) ++ txt ".png"))
                     (txt ".png") = true).
    { unfold EPTScopeView.lower. rewrite map_app.
      change (map EPTScopeView.lower_char (txt ".png")) with (txt ".png").
      apply endswith_app. }
    exists ((c :: fn) ++ txt ".png"). split; [reflexivity|].
    split; [exact Hpng|]. split; [apply startswith_app|].
    unfold EPTScopeView.snapshot_name.
    change ((c :: fn) ++ txt ".png") with (c :: (fn ++ txt ".png")) in *.
    rewrite Hpng. reflexivity.
Qed.

Lemma snapshot_name_ends_in_png_witness :
  exists name,
    EPTScopeView.snapshot_name (txt "Plot.PNG") = Some name /\
    endswith (EPTScopeView.lower name) (txt ".png") = true /\
    startswith name (txt "Plot.PNG") = true /\
    EPTScopeView.snapshot_name name = Some name.
Proof.
  exact (@snapshot_name_ends_in_png (txt "Plot.PNG") ltac:(discriminate)).
Defined.

Section TriggerLine.
Context {V : Type}.
Variable float_of_text : text -> outcome V.

Lemma change_thresholds_invariant (fields : list text) :
  (forall t e, float_of_text t = Raise e -> e = ValueError) ->
  forall g : EPTScopeView.trigger V,
  EPTScopeView.plot_lines g
  = match EPTScopeView.trigger_line g with Some l => [l] | None => [] end ->
  exists g',
    EPTScopeView.change_thresholds float_of_text fields g = Ok g' /\
    EPTScopeView.plot_lines g'
    = match EPTScopeView.trigger_line g' with Some l => [l] | None => [] end /\
    option_map snd (EPTScopeView.trigger_line g')
    = EPTScopeView.latest_level float_of_text fields
        (option_map snd (EPTScopeView.trigger_line g)).
Proof.
  intros Hval. induction fields as [|field rest IH]; intros g Hinv.
  - exists g. split; [reflexivity|]. split; [exact Hinv|reflexivity].
  - cbn [EPTScopeView.change_thresholds].
    unfold EPTScopeView.change_threshold, EPTScopeView.latest_level.
    cbn [fold_left].
    destruct (float_of_text field) as [val|e] eqn:Hf.
    + cbn [bind].
      match goal with
      | |- context [EPTScopeView.change_thresholds _ rest ?g0] =>
          destruct (IH g0) as (g' & Hrun & Hone & Hlast)
      end.
      { cbn [EPTScopeView.plot_lines EPTScopeView.trigger_line]. rewrite Hinv.
        destruct (EPTScopeView.trigger_line g) as [[id old]|];
          [|reflexivity].
        unfold EPTScopeView.remove_line. cbn [filter fst].
        rewrite Nat.eqb_refl. reflexivity. }
      exists g'. split; [exact Hrun|]. split; [exact Hone|].
      rewrite Hlast. reflexivity.
    + rewrite (Hval _ _ Hf). cbn [bind].
      destruct (IH g Hinv) as (g' & Hrun & Hone & Hlast).
      exists g'. split; [exact Hrun|]. split; [exact Hone|exact Hlast].
Qed.

(** X27 (change_threshold): however often the threshold field is
    edited, the edits do not raise, the plot carries at most one
    trigger line, the one the window remembers, and its level is the
    last text that was a number; a text that is not a number changes
    nothing. *)
Theorem trigger_line_is_the_latest_level (fields : list text) :
  (forall t e, float_of_text t = Raise e -> e = ValueError) ->
  exists g,
    EPTScopeView.change_thresholds float_of_text fields
      (EPTScopeView.mkTrigger 0 None []) = Ok g /\
    EPTScopeView.plot_lines g
    = match EPTScopeView.trigger_line g with Some l => [l] | None => [] end /\
    map snd (EPTScopeView.plot_lines g)
    = match EPTScopeView.latest_level float_of_text fields None with
      | Some level => [level]
      | None => []
      end.
Proof.
  intros Hval.
  destruct (@change_thresholds_invariant fields Hval
              (EPTScopeView.mkTrigger 0 None []) eq_refl)
    as (g & Hrun & Hone & Hlast).
  exists g. split; [exact Hrun|]. split; [exact Hone|].
  rewrite Hone.
  cbn [EPTScopeView.trigger_line option_map] in Hlast. rewrite <- Hlast.
  destruct (EPTScopeView.trigger_line g); reflexivity.
Qed.

End TriggerLine.

Lemma nat_of_text_raises_value_error (t : text) (e : exn) :
  nat_of_text t = Raise e -> e = ValueError.
Proof.
  unfold nat_of_text. intros H.
  repeat match type of H with
         | context [match ?x with _ => _ end] => destruct x
         | context [if ?x then _ else _] => destruct x
         end; congruence.
Qed.

Lemma trigger_line_is_the_latest_level_witness :
  exists g,
    EPTScopeView.change_thresholds nat_of_text
      [txt "100"; txt "abc"; txt "250"; txt ""]
      (EPTScopeView.mkTrigger 0 None []) = Ok g /\
    EPTScopeView.plot_lines g
    = match EPTScopeView.trigger_line g with Some l => [l] | None => [] end /\
    map snd (EPTScopeView.plot_lines g)
    = match EPTScopeView.latest_level nat_of_text
              [txt "100"; txt "abc"; txt "250"; txt ""] None with
      | Some level => [level]
      | None => []
      end.
Proof.
  exact (@trigger_line_is_the_latest_level nat nat_of_text
           [txt "100"; txt "abc"; txt "250"; txt ""]
           nat_of_text_raises_value_error).
Defined.

Section Recorder.
Context {T V : Type}.

Lemma ticks_while_recording (v : V) (ys : list V) (nows : list T) :
  forall (r : EPTScopeView.recording T V) (rows : list (EPTScopeView.row T V)),
  EPTScope.is_running (EPTScopeView.win r) = true ->
  EPTScope.buffer_t (EPTScopeView.win r) <> [] ->
  EPTScope.buffer_y (EPTScopeView.win r) = ys ++ [v] ->
  EPTScopeView.rec_checked r = true ->
  EPTScopeView.record_fh r = Some rows ->
  EPTScopeView.record_fh (EPTScopeView.ticks nows r)
  = Some (rows ++ map (fun now => EPTScopeView.Sample now v) nows) /\
  EPTScope.buffer_t (EPTScopeView.win (EPTScopeView.ticks nows r))
  = EPTScope.buffer_t (EPTScopeView.win r) /\
  EPTScope.buffer_y (EPTScopeView.win (EPTScopeView.ticks nows r))
  = EPTScope.buffer_y (EPTScopeView.win r).
Proof.
  induction nows as [|now nows IH]; intros r rows Hrun Ht Hy Hrec Hfh.
  - cbn. rewrite app_nil_r. auto.
  - unfold EPTScopeView.ticks. cbn [fold_left].
    fold (EPTScopeView.ticks nows (EPTScopeView.update_plot now r)).
    assert (Hstep : EPTScopeView.update_plot now r
              = EPTScopeView.mkRecording
                  (EPTScope.mkWindow (EPTScope.buffer_t (EPTScopeView.win r))
                     (EPTScope.buffer_y (EPTScopeView.win r))
                     (EPTScope.is_running (EPTScopeView.win r))
                     (EPTScope.buffer_t (EPTScopeView.win r),
                      EPTScope.buffer_y (EPTScopeView.win r))
                     (EPTScope.fft_window (EPTScopeView.win r)))
                  true (Some (rows ++ [EPTScopeView.Sample now v]))
                  (EPTScopeView.said r)).
    { unfold EPTScopeView.update_plot. rewrite Hrun, Hrec, Hfh. cbn [negb].
      destruct (EPTScope.buffer_t (EPTScopeView.win r)) as [|t0 ts] eqn:Hbt;
        [congruence|].
      rewrite Hy, rev_app_distr. cbn [rev app]. reflexivity. }
    rewrite Hstep.
    destruct (IH (EPTScopeView.mkRecording
                  (EPTScope.mkWindow (EPTScope.buffer_t (EPTScopeView.win r))
                     (EPTScope.buffer_y (EPTScopeView.win r))
                     (EPTScope.is_running (EPTScopeView.win r))
                     (EPTScope.buffer_t (EPTScopeView.win r),
                      EPTScope.buffer_y (EPTScopeView.win r))
                     (EPTScope.fft_window (EPTScopeView.win r)))
                  true (Some (rows ++ [EPTScopeView.Sample now v]))
                  (EPTScopeView.said r))
                (rows ++ [EPTScopeView.Sample now v]))
      as (Hrows & Hts & Hys); try reflexivity; try assumption.
    rewrite Hrows, Hts, Hys. cbn [map EPTScopeView.win EPTScope.buffer_t
                                   EPTScope.buffer_y].
    rewrite <- app_assoc. cbn [app]. auto.
Qed.

(** X28 (toggle_recording, update_plot of EPTscope.py): once a file
    name is chosen, while the window is running with a buffer that is
    not empty, the recorded file holds the header and then one row for
    each tick of the timer, every row carrying the latest stored value:
    rows follow the timer, not the arrival of samples. The buffer is
    left as it was. *)
Theorem recorder_writes_one_row_per_tick (fn : text) (nows : list T)
    (r : EPTScopeView.recording T V) (ys : list V) (v : V) :
  fn <> [] ->
  EPTScope.is_running (EPTScopeView.win r) = true ->
  EPTScope.buffer_t (EPTScopeView.win r) <> [] ->
  EPTScope.buffer_y (EPTScopeView.win r) = ys ++ [v] ->
  EPTScopeView.record_fh
    (EPTScopeView.ticks nows (EPTScopeView.toggle_recording true fn r))
  = Some (EPTScopeView.Header
          :: map (fun now => EPTScopeView.Sample now v) nows) /\
  EPTScope.buffer_t
    (EPTScopeView.win
       (EPTScopeView.ticks nows (EPTScopeView.toggle_recording true fn r)))
  = EPTScope.buffer_t (EPTScopeView.win r) /\
  EPTScope.buffer_y
    (EPTScopeView.win
       (EPTScopeView.ticks nows (EPTScopeView.toggle_recording true fn r)))
  = ys ++ [v].
Proof.
  intros Hfn Hrun Ht Hy. destruct fn as [|c fn]; [congruence|].
  cbn [EPTScopeView.toggle_recording].
  destruct (@ticks_while_recording v ys nows
              (EPTScopeView.mkRecording (EPTScopeView.win r) true
                 (Some [EPTScopeView.Header]) (EPTScopeView.said r))
              [EPTScopeView.Header] Hrun Ht Hy eq_refl eq_refl)
    as (Hrows & Hts & Hys).
  rewrite Hrows, Hts, Hys. cbn [EPTScopeView.win app]. auto.
Qed.

End Recorder.

Lemma recorder_writes_one_row_per_tick_witness :
  let r := EPTScopeView.mkRecording
             (EPTScope.mkWindow [0; 1]%nat [5; 7]%nat true ([], []) None)
             false None [] in
  EPTScopeView.record_fh
    (EPTScopeView.ticks [10; 20; 30]%nat
       (EPTScopeView.toggle_recording true (txt "run.csv") r))
  = Some [EPTScopeView.Header; EPTScopeView.Sample 10 7;
          EPTScopeView.Sample 20 7; EPTScopeView.Sample 30 7]%nat.
Proof.
  intros r.
  exact (proj1 (@recorder_writes_one_row_per_tick nat nat (txt "run.csv")
                  [10; 20; 30]%nat r [5]%nat 7%nat
                  ltac:(discriminate) eq_refl ltac:(discriminate) eq_refl)).
Defined.


(** ** The frequency axis of the second window *)

Section SecondWindowSpectrum.
Local Open Scope Q_scope.
Variable rfft_abs : list Q -> list Q.

(** X29 (perform_fft): with at least two samples, the first two
    timestamps [t0] and [t1] are read as milliseconds. When they are
    equal the handler raises ZeroDivisionError and opens no spectrum
    window; otherwise it plots the magnitudes of the transform against
    [n/2 + 1] frequencies, the [k]-th being [1000 k / (n (t1 - t0))].
    The buffer is left as it was. *)
Theorem perform_fft_frequency_axis (w : EPTScope.window Q) (t0 t1 : Q)
    (rest : list Q) :
  EPTScope.buffer_t w = t0 :: t1 :: rest ->
  (2 <= length (EPTScope.buffer_y w))%nat ->
  (t1 == t0 ->
   EPTScope.perform_fft rfft_abs w = (w, [], Some ZeroDivisionError)) /\
  (~ t1 == t0 ->
   exists X,
     EPTScope.perform_fft rfft_abs w
     = (EPTScope.mkWindow (EPTScope.buffer_t w) (EPTScope.buffer_y w)
          (EPTScope.is_running w) (EPTScope.curve w)
          (Some (X, rfft_abs (EPTScope.buffer_y w))), [], None) /\
     length X = (length (EPTScope.buffer_y w) / 2 + 1)%nat /\
     forall k, (k <= length (EPTScope.buffer_y w) / 2)%nat ->
       nth k X 0
       == inject_Z (1000 * Z.of_nat k)
          / (inject_Z (Z.of_nat (length (EPTScope.buffer_y w))) * (t1 - t0))).
Proof.
  intros Hbt Hn.
  assert (Hlt : (length (EPTScope.buffer_y w) <? 2)%nat = false)
    by (apply Nat.ltb_ge; exact Hn).
  assert (Hnz : ~ inject_Z (Z.of_nat (length (EPTScope.buffer_y w))) == 0)
    by (apply inject_nat_nonzero; lia).
  unfold EPTScope.perform_fft. rewrite Hlt, Hbt. cbn [nth_error].
  unfold EPTScope.rfftfreq, float_truediv.
  cbn [is_zero mul div sub ratio Q_Arith].
  set (n := length (EPTScope.buffer_y w)) in *.
  set (d := (t1 - t0) / (inject_Z 1000 / inject_Z 1)).
  split.
  - intros Heq.
    assert (Hz : Qeq_bool (of_nat n * d) 0 = true).
    { apply Qeq_bool_iff. unfold d. rewrite Heq.
      change (inject_Z 1000) with 1000. change (inject_Z 1) with 1.
      rewrite of_nat_Q. field. }
    rewrite Hz. reflexivity.
  - intros Hneq.
    assert (Hd : ~ d == 0).
    { unfold d. change (inject_Z 1000) with 1000. change (inject_Z 1) with 1.
      intro Hc. apply Hneq.
      assert (Hc' : t1 - t0 == (t1 - t0) / (1000 / 1) * 1000) by field.
      rewrite Hc in Hc'. lra. }
    assert (Hz : Qeq_bool (of_nat n * d) 0 = false).
    { destruct (Qeq_bool (of_nat n * d) 0) eqn:Hc; [|reflexivity].
      apply Qeq_bool_iff in Hc. rewrite of_nat_Q in Hc.
      apply Qmult_integral in Hc. tauto. }
    rewrite Hz. cbn [bind].
    eexists. split; [reflexivity|].
    split; [rewrite length_map, length_seq; reflexivity|].
    intros k Hk.
    rewrite (nth_indep _ 0 (of_nat 0 * (inject_Z 1 / inject_Z 1 / (of_nat n * d))))
      by (rewrite length_map, length_seq; lia).
    rewrite (map_nth (fun k0 => of_nat k0 * (inject_Z 1 / inject_Z 1 / (of_nat n * d)))).
    rewrite seq_nth by lia. cbn [Nat.add].
    rewrite !of_nat_Q. unfold d.
    rewrite inject_Z_mult.
    change (inject_Z 1000) with 1000. change (inject_Z 1) with 1.
    field. split; [|exact Hnz].
    intro Hc. apply Hneq. lra.
Qed.

End SecondWindowSpectrum.

Lemma perform_fft_frequency_axis_witness :
  let w := EPTScope.mkWindow [0; 2; 4; 6]%Q [1; 1; 1; 1]%Q false ([], []) None in
  exists X,
    EPTScope.perform_fft (fun y : list Q => y) w
    = (EPTScope.mkWindow [0; 2; 4; 6]%Q [1; 1; 1; 1]%Q false ([], [])
         (Some (X, [1; 1; 1; 1]%Q)), [], None) /\
    length X = 3%nat /\
    (nth 1 X 0 == 125)%Q.
Proof.
  intros w.
  destruct (@perform_fft_frequency_axis (fun y : list Q => y) w 0%Q 2%Q [4; 6]%Q eq_refl ltac:(cbn; lia))
    as [_ Haxis].
  destruct (Haxis ltac:(discriminate)) as (X & Hrun & Hlen & Hnth).
  exists X. split; [exact Hrun|]. split; [exact Hlen|].
  rewrite (Hnth 1%nat ltac:(cbn; lia)). reflexivity.
Defined.

